(** * FS-ETL backend: validator, generator and executor, embedded in Rocq

    The three pipeline stages of the backend ([modules/validator.py],
    [modules/generator.py], [modules/executor.py]) and the request handlers
    of [main.py] are translated to Rocq definitions.

    - Python [str] values are lists of Unicode code points.
    - Calls that leave the repository (database drivers, pandas, json, the
      operating system, the LLM client) are nodes of a program tree; an
      environment answers each call with a value or an exception.
    - [try]/[except] is a combinator on program trees. *)

From Stdlib Require Import Ascii String NArith ZArith List Bool Lia.
From stdpp Require Import base list gmap.
Import ListNotations.
Set Warnings "-register-all".
Local Open Scope N_scope.
Local Open Scope list_scope.

(** ** Python strings *)

(** A character is a Unicode code point ([N]); a [str] is a sequence of
    them. *)
Abbreviation str := (list N).

(** Source-code literals (all of them ASCII). *)
Definition lit (s : string) : str := map N_of_ascii (list_ascii_of_string s).

(** [a == b] on strings. *)
Fixpoint str_eqb (a b : str) : bool :=
  match a, b with
  | [], [] => true
  | x :: a', y :: b' => (x =? y) && str_eqb a' b'
  | _, _ => false
  end.

(** [text.startswith(prefix)] *)
Fixpoint startswith (text prefix : str) {struct prefix} : bool :=
  match prefix with
  | [] => true
  | p :: prefix' =>
      match text with
      | [] => false
      | c :: text' => (c =? p) && startswith text' prefix'
      end
  end.

(** [text.endswith(suffix)] *)
Definition endswith (text suffix : str) : bool :=
  startswith (rev text) (rev suffix).

(** [sub in text] *)
Fixpoint contains (text sub : str) : bool :=
  startswith text sub ||
  match text with
  | [] => false
  | _ :: text' => contains text' sub
  end.

(** [str.isspace] for one code point (CPython's [_PyUnicode_IsWhitespace]). *)
Definition isspace (c : N) : bool :=
  ((9 <=? c) && (c <=? 13)) || ((28 <=? c) && (c <=? 32))
  || (c =? 133) || (c =? 160) || (c =? 5760)
  || ((8192 <=? c) && (c <=? 8202))
  || (c =? 8232) || (c =? 8233) || (c =? 8239) || (c =? 8287) || (c =? 12288).

(** [text.lstrip()], [text.rstrip()], [text.strip()] *)
Fixpoint lstrip (text : str) : str :=
  match text with
  | [] => []
  | c :: text' => if isspace c then lstrip text' else text
  end.

Definition rstrip (text : str) : str := rev (lstrip (rev text)).

Definition strip (text : str) : str := rstrip (lstrip text).

(** Line boundaries of [str.splitlines]. *)
Definition is_linebreak (c : N) : bool :=
  ((10 <=? c) && (c <=? 13)) || ((28 <=? c) && (c <=? 30))
  || (c =? 133) || (c =? 8232) || (c =? 8233).

(** [text.splitlines()]: [line] holds the characters of the line being
    read; a carriage return directly followed by a line feed is one
    boundary; a final line without terminator is kept when not empty. *)
Fixpoint splitlines_from (line text : str) : list str :=
  match text with
  | [] => match line with [] => [] | _ :: _ => [line] end
  | c :: rest =>
      if is_linebreak c then
        line ::
        match rest with
        | d :: rest' =>
            if (c =? 13) && (d =? 10) then splitlines_from [] rest'
            else splitlines_from [] rest
        | [] => splitlines_from [] rest
        end
      else splitlines_from (line ++ [c]) rest
  end.

Definition splitlines (text : str) : list str := splitlines_from [] text.

(** [sep.join(parts)] *)
Fixpoint join (sep : str) (parts : list str) : str :=
  match parts with
  | [] => []
  | [p] => p
  | p :: parts' => p ++ sep ++ join sep parts'
  end.

(** [text.lower()].  ASCII letters are mapped here; the lowercase expansion
    of a code point outside ASCII comes from the Unicode tables of the
    runtime ([unicode_lower before c after], the context matters for the
    capital sigma only). *)
Section Lower.
Variable unicode_lower : str -> N -> str -> str.

Definition lower_char (before : str) (c : N) (after : str) : str :=
  if (65 <=? c) && (c <=? 90) then [c + 32]
  else if c <? 128 then [c]
  else unicode_lower before c after.

Fixpoint lower_from (before text : str) : str :=
  match text with
  | [] => []
  | c :: rest => lower_char before c rest ++ lower_from (before ++ [c]) rest
  end.

Definition lower (text : str) : str := lower_from [] text.
End Lower.

(** ** generator.py: [strip_code_block] *)

Definition strip_code_block (text : str) : str :=
  let text :=
    if startswith text (lit "```python") then
      lstrip (drop (length (lit "```python")) text)
    else if startswith text (lit "```") then
      lstrip (drop (length (lit "```")) text)
    else text in
  let text :=
    if endswith text (lit "```") then rstrip (take (length text - 3) text)
    else text in
  text.


(** ** Python values, exceptions and library calls *)

(** Values that cross the boundary of the repository: JSON-like data of
    requests and responses, database cells, and opaque objects of other
    classes ([VObj]: class name and the text [str()] gives). *)
Inductive pyval : Type :=
| VNone
| VBool (b : bool)
| VInt (n : Z)
| VStr (s : str)
| VList (items : list pyval)
| VTuple (items : list pyval)
| VDict (entries : list (pyval * pyval))
| VObj (cls : string) (text : str).

(** A raised exception: its class and [str(e)]. *)
Record exn : Type := Exc { exn_class : string; exn_str : str }.

Inductive outcome (A : Type) : Type :=
| Returns (a : A)
| Raises (e : exn).
Arguments Returns {A} a.
Arguments Raises {A} e.

(** Connections, cursors, clients, data frames and LLM clients are opaque
    object references. *)
Abbreviation handle := N.
(** A result row, a column description or a document's content. *)
Abbreviation row := (list pyval).

(** The calls the backend makes into libraries and the operating system. *)
Inductive lib_call : Type :=
(* DB-API drivers *)
| Psycopg2_connect (host port user password database : pyval)
| Pymysql_connect (host : pyval) (port : Z) (user password database : pyval)
| Pyodbc_connect (connection_string : str)
| Sqlite3_connect (file_path : pyval)
| Connection_cursor (connection : handle)
| Cursor_execute (cursor : handle) (sql : str)
| Cursor_fetchall (cursor : handle)
| Cursor_description (cursor : handle)
| Cursor_close (cursor : handle)
| Connection_close (connection : handle)
(* pymongo: MongoClient(uri), obj[name], list(collection.find().limit(n)) *)
| MongoClient (uri : pyval)
| Mongo_getitem (obj : handle) (name : pyval)
| Mongo_find_limit (collection : handle) (n : Z)
| Mongo_close (client : handle)
(* builtins on values that are not handled in the model *)
| Builtin_int (v : pyval)
| Builtin_len (v : pyval)
| Builtin_str (v : pyval)
(* json and pandas *)
| Json_roundtrip (v : pyval)
| Json_dumps (v : pyval)
| Json_dumps_indent (d : gmap str pyval) (indent : Z)
| Pandas_DataFrame (data columns : option pyval)
| DataFrame_to_dict (df : handle) (orient : str)
(* tempfile, subprocess, os *)
| NamedTemporaryFile (mode suffix : str) (delete : bool)
| File_write (f : handle) (text : str)
| File_close (f : handle)
| Subprocess_run (argv : list str)
| Os_unlink (path : str)
| Os_getenv (name : str)
(* langchain *)
| ChatOpenAI (model : str) (temperature : Z)
| ChatGoogleGenerativeAI (model : str) (temperature : Z)
| Llm_invoke (llm : handle) (prompt : str).

(** What each call gives back when it does not raise. *)
Definition lib_result (c : lib_call) : Type :=
  match c with
  | Psycopg2_connect _ _ _ _ _ | Pymysql_connect _ _ _ _ _
  | Pyodbc_connect _ | Sqlite3_connect _ | Connection_cursor _
  | MongoClient _ | Mongo_getitem _ _ => handle
  | Cursor_execute _ _ | Cursor_close _ | Connection_close _
  | Mongo_close _ | File_write _ _ | File_close _ | Os_unlink _ => unit
  | Cursor_fetchall _ | Cursor_description _ => list row
  | Mongo_find_limit _ _ => list (list (pyval * pyval))
  | Builtin_int _ | Builtin_len _ => Z
  | Builtin_str _ | Json_dumps _ | Json_dumps_indent _ _ => str
  | Json_roundtrip _ | DataFrame_to_dict _ _ => pyval
  | Pandas_DataFrame _ _ => handle
  | NamedTemporaryFile _ _ _ => (handle * str)%type
  | Subprocess_run _ => (str * str)%type
  | Os_getenv _ => option str
  | ChatOpenAI _ _ | ChatGoogleGenerativeAI _ _ => handle
  | Llm_invoke _ _ => str
  end.

(** ** Programs *)

(** A program returns, raises, or makes a library call and continues with
    what the call gave (a result or an exception). *)
Inductive prog (A : Type) : Type :=
| Ret (a : A)
| Raise (e : exn)
| Call (c : lib_call) (k : outcome (lib_result c) -> prog A).
Arguments Ret {A} a.
Arguments Raise {A} e.
Arguments Call {A} c k.

Definition call (c : lib_call) : prog (lib_result c) :=
  Call c (fun r => match r with Returns x => Ret x | Raises e => Raise e end).

Fixpoint bind {A B : Type} (p : prog A) (f : A -> prog B) : prog B :=
  match p with
  | Ret a => f a
  | Raise e => Raise e
  | Call c k => Call c (fun r => bind (k r) f)
  end.

(** [try: p  except Exception as e: handler e] *)
Fixpoint try_except {A : Type} (p : prog A) (handler : exn -> prog A) : prog A :=
  match p with
  | Ret a => Ret a
  | Raise e => handler e
  | Call c k => Call c (fun r => try_except (k r) handler)
  end.

(** [with ... :] runs [cleanup] when the body is left, normally or not. *)
Definition finally {A : Type} (p : prog A) (cleanup : prog unit) : prog A :=
  bind (try_except (bind p (fun a => Ret (Returns a))) (fun e => Ret (Raises e)))
       (fun o => bind cleanup (fun _ =>
          match o with Returns a => Ret a | Raises e => Raise e end)).

Declare Scope prog_scope.
Delimit Scope prog_scope with prog.
Notation "x <- p ;; q" := (bind p (fun x => q))
  (at level 100, p at next level, right associativity) : prog_scope.
Notation "p ;;; q" := (bind p (fun _ => q))
  (at level 100, right associativity) : prog_scope.
Local Open Scope prog_scope.

(** A list comprehension whose element expression may raise. *)
Fixpoint comprehension {A B : Type} (f : A -> prog B) (l : list A) : prog (list B) :=
  match l with
  | [] => Ret []
  | x :: l' => y <- f x ;; ys <- comprehension f l' ;; Ret (y :: ys)
  end.

(** The first library call a program makes, if it makes one. *)
Definition first_call {A : Type} (p : prog A) : option lib_call :=
  match p with
  | Call c _ => Some c
  | _ => None
  end.

(** *** Running a program in an environment *)

(** An environment answers each call from its state [W]. *)
Definition env (W : Type) : Type :=
  forall c : lib_call, W -> outcome (lib_result c) * W.

Record event : Type := Event { ev_call : lib_call; ev_result : outcome (lib_result ev_call) }.

(** The outcome, the final state and the calls made with their answers. *)
Fixpoint run {W A : Type} (h : env W) (p : prog A) (w : W)
  : outcome A * W * list event :=
  match p with
  | Ret a => (Returns a, w, [])
  | Raise e => (Raises e, w, [])
  | Call c k =>
      let '(r, w1) := h c w in
      let '(o, w2, log) := run h (k r) w1 in
      (o, w2, Event c r :: log)
  end.

Definition result_of {W A : Type} (h : env W) (p : prog A) (w : W) : outcome A :=
  fst (fst (run h p w)).
Definition log_of {W A : Type} (h : env W) (p : prog A) (w : W) : list event :=
  snd (run h p w).

(** *** Builtins on values *)

(** Truth value of an object ([if x], [not x], [x and ...]). *)
Definition truthy (v : pyval) : bool :=
  match v with
  | VNone => false
  | VBool b => b
  | VInt n => negb (n =? 0)%Z
  | VStr s => negb (str_eqb s [])
  | VList l | VTuple l => match l with [] => false | _ => true end
  | VDict d => match d with [] => false | _ => true end
  | VObj _ _ => true
  end.

(** [len(v)] *)
Definition py_len (v : pyval) : prog Z :=
  match v with
  | VStr s => Ret (Z.of_nat (length s))
  | VList l | VTuple l => Ret (Z.of_nat (length l))
  | VDict d => Ret (Z.of_nat (length d))
  | VObj _ _ => call (Builtin_len v)
  | _ => Raise (Exc "TypeError" (lit "object has no len()"))
  end.

(** Formatting inside an f-string: a [str] is inserted as it is. *)
Definition format_value (v : pyval) : prog str :=
  match v with
  | VStr s => Ret s
  | _ => call (Builtin_str v)
  end.

Definition is_digit (c : N) : bool := (48 <=? c) && (c <=? 57).

Definition decimal_value (s : str) : Z :=
  fold_left (fun acc c => (10 * acc + Z.of_N (c - 48))%Z) s 0%Z.

(** [int(v)]: integers and plain decimal numerals of at most 640 digits
    are converted here; every other value is left to the runtime.  Since
    Python 3.11 [int] refuses a numeral above a limit of digits, 4300
    unless configured, and never below 640. *)
Definition py_int (v : pyval) : prog Z :=
  match v with
  | VInt n => Ret n
  | VStr (c :: s) =>
      if forallb is_digit (c :: s) && (length (c :: s) <=? 640)%nat
      then Ret (decimal_value (c :: s))
      else call (Builtin_int v)
  | _ => call (Builtin_int v)
  end.

(** [seq[i]] on a tuple. *)
Definition getitem (seq : row) (i : nat) : prog pyval :=
  match seq !! i with
  | Some v => Ret v
  | None => Raise (Exc "IndexError" (lit "tuple index out of range"))
  end.

(** [creds.get(key, default)] *)
Definition dict_get (creds : gmap str pyval) (key : string) (default : string) : pyval :=
  match creds !! lit key with
  | Some v => v
  | None => VStr (lit default)
  end.

(** ** modules/validator.py *)

Definition nl : str := [10].

(** Rows and documents as Python objects: a row is a tuple of cells, a
    document a dictionary. *)
Definition rows_value (rows : list row) : pyval := VList (map VTuple rows).
Definition docs_value (docs : list (list (pyval * pyval))) : pyval :=
  VList (map VDict docs).

(** The three server branches share their tail: open a cursor, run the
    query (its text is formatted at that point), read the rows and the
    column names, close. *)
Definition fetch_with_description (connection : handle) (sql : prog str)
  : prog (bool * pyval) :=
  cursor <- call (Connection_cursor connection) ;;
  query <- sql ;;
  call (Cursor_execute cursor query) ;;;
  result <- call (Cursor_fetchall cursor) ;;
  description <- call (Cursor_description cursor) ;;
  column_names <- comprehension (fun desc => getitem desc 0) description ;;
  call (Cursor_close cursor) ;;;
  call (Connection_close connection) ;;;
  Ret (true, VTuple [VList column_names; rows_value result]).

Definition validate_db_connection (db_type : str) (creds : gmap str pyval)
  : prog (bool * pyval) :=
  try_except
    (if str_eqb db_type (lit "PostgreSQL") then
       connection <- call (Psycopg2_connect
                             (dict_get creds "host" EmptyString)
                             (dict_get creds "port" "5432")
                             (dict_get creds "user" EmptyString)
                             (dict_get creds "password" EmptyString)
                             (dict_get creds "database" EmptyString)) ;;
       fetch_with_description connection
         (table <- format_value (dict_get creds "table" EmptyString) ;;
          Ret (lit "SELECT * FROM " ++ table ++ lit " LIMIT 2;"))
     else if str_eqb db_type (lit "MySQL") then
       port <- py_int (dict_get creds "port" "3306") ;;
       connection <- call (Pymysql_connect
                             (dict_get creds "host" EmptyString)
                             port
                             (dict_get creds "user" EmptyString)
                             (dict_get creds "password" EmptyString)
                             (dict_get creds "database" EmptyString)) ;;
       fetch_with_description connection
         (table <- format_value (dict_get creds "table" EmptyString) ;;
          Ret (lit "SELECT * FROM " ++ table ++ lit " LIMIT 2;"))
     else if str_eqb db_type (lit "MSSQL") then
       host <- format_value (dict_get creds "host" EmptyString) ;;
       port <- format_value (dict_get creds "port" "1433") ;;
       user <- format_value (dict_get creds "user" EmptyString) ;;
       password <- format_value (dict_get creds "password" EmptyString) ;;
       database <- format_value (dict_get creds "database" EmptyString) ;;
       connection <- call (Pyodbc_connect
                             (lit "DRIVER={ODBC Driver 17 for SQL Server};SERVER="
                              ++ host ++ lit ";PORT=" ++ port ++ lit ";UID=" ++ user
                              ++ lit ";PWD=" ++ password ++ lit ";DATABASE="
                              ++ database)) ;;
       fetch_with_description connection
         (table <- format_value (dict_get creds "table" EmptyString) ;;
          Ret (lit "SELECT TOP 2 * FROM " ++ table ++ lit ";"))
     else if str_eqb db_type (lit "MongoDB") then
       client <- call (MongoClient (dict_get creds "uri" EmptyString)) ;;
       db <- call (Mongo_getitem client (dict_get creds "database" EmptyString)) ;;
       collection <- call (Mongo_getitem db (dict_get creds "collection" EmptyString)) ;;
       result <- call (Mongo_find_limit collection 2) ;;
       let fields :=
         match result with
         | first :: _ => map fst first
         | [] => []
         end in
       call (Mongo_close client) ;;;
       Ret (true, VTuple [VList fields; docs_value result])
     else if str_eqb db_type (lit "SQLite") then
       connection <- call (Sqlite3_connect (dict_get creds "file_path" EmptyString)) ;;
       cursor <- call (Connection_cursor connection) ;;
       table <- format_value (dict_get creds "table" EmptyString) ;;
       call (Cursor_execute cursor (lit "SELECT * FROM " ++ table ++ lit " LIMIT 2;")) ;;;
       result <- call (Cursor_fetchall cursor) ;;
       table' <- format_value (dict_get creds "table" EmptyString) ;;
       call (Cursor_execute cursor (lit "PRAGMA table_info(" ++ table' ++ lit ");")) ;;;
       infos <- call (Cursor_fetchall cursor) ;;
       column_names <- comprehension (fun info => getitem info 1) infos ;;
       call (Cursor_close cursor) ;;;
       call (Connection_close connection) ;;;
       Ret (true, VTuple [VList column_names; rows_value result])
     else
       Ret (false, VStr (lit "Unsupported database type: " ++ db_type)))
    (fun e => Ret (false, VStr (exn_str e))).

Definition validate_and_fetch_schema (db_type : str) (creds : gmap str pyval)
  : prog (str * pyval) :=
  try_except
    (r <- validate_db_connection db_type creds ;;
     let '(success, result) := r in
     if success then
       match result with
       | VTuple [column_names; data] =>
           df <- (if str_eqb db_type (lit "MongoDB") then
                    nonempty <- (if truthy data then
                                   n <- py_len data ;; Ret (0 <? n)%Z
                                 else Ret false) ;;
                    if (nonempty : bool) then
                      data_str <- call (Json_roundtrip data) ;;
                      call (Pandas_DataFrame (Some data_str) None)
                    else call (Pandas_DataFrame None (Some column_names))
                  else call (Pandas_DataFrame (Some data) (Some column_names))) ;;
           preview_data <- call (DataFrame_to_dict df (lit "records")) ;;
           let status := lit "Connected to " ++ db_type ++ lit " successfully!" in
           Ret (status, VTuple [column_names; preview_data])
       | _ => Ret (lit "Connected but couldn't fetch schema", VList [])
       end
     else
       result_text <- format_value result ;;
       Ret (lit "Error: " ++ result_text, VList []))
    (fun e => Ret (lit "Error: " ++ exn_str e, VList [])).

(** ** modules/executor.py *)

Definition run_etl_script (code : str) : prog (str * str) :=
  try_except
    (f <- call (NamedTemporaryFile (lit "w") (lit ".py") false) ;;
     temp_path <- finally (call (File_write (fst f) code) ;;; Ret (snd f))
                          (call (File_close (fst f))) ;;
     result <- call (Subprocess_run [lit "python"; temp_path]) ;;
     let '(result_stdout, result_stderr) := result in
     try_except (call (Os_unlink temp_path)) (fun _ => Ret tt) ;;;
     let filtered_stderr :=
       join nl (List.filter
                  (fun line => negb (contains line (lit "numpy/_core/getlimits.py")))
                  (splitlines result_stderr)) in
     Ret (strip result_stdout, strip filtered_stderr))
    (fun e => Ret ([], 10060 :: lit " Error running script: " ++ exn_str e)).

(** ** modules/generator.py *)

(** The module globals the import block leaves behind.  [USE_OPENAI] is
    bound only when the first import block failed. *)
Record generator_globals : Type := {
  LANGCHAIN_AVAILABLE : bool;
  USE_OPENAI : option bool;
  ChatGoogleGenerativeAI_bound : bool;
  LLMBackend_bound : bool
}.

(** Lines 8-21, run once when the module is imported. *)
Definition import_generator (google_genai langchain_core langchain_openai : bool)
  : generator_globals :=
  if google_genai && langchain_core then
    {| LANGCHAIN_AVAILABLE := true; USE_OPENAI := None;
       ChatGoogleGenerativeAI_bound := true; LLMBackend_bound := false |}
  else if langchain_openai && langchain_core then
    {| LANGCHAIN_AVAILABLE := true; USE_OPENAI := Some true;
       ChatGoogleGenerativeAI_bound := google_genai; LLMBackend_bound := true |}
  else
    {| LANGCHAIN_AVAILABLE := false; USE_OPENAI := Some false;
       ChatGoogleGenerativeAI_bound := google_genai;
       LLMBackend_bound := langchain_openai |}.

(** [locals()] at the test in [get_llm]: the function has no parameter and
    has bound no local name yet. *)
Definition get_llm_locals : list str := [].

Definition name_error (name : string) : exn :=
  Exc "NameError" (lit "name '" ++ lit name ++ lit "' is not defined").

(** [not api_key] *)
Definition key_missing (api_key : option str) : bool :=
  match api_key with
  | None => true
  | Some s => str_eqb s []
  end.

Definition get_llm (g : generator_globals) : prog handle :=
  if negb (LANGCHAIN_AVAILABLE g) then
    Raise (Exc "ImportError"
      (lit "Neither langchain_google_genai nor langchain_openai is available. Please install one of them."))
  else
    use_openai <- (if existsb (str_eqb (lit "USE_OPENAI")) get_llm_locals then
                     match USE_OPENAI g with
                     | Some b => Ret b
                     | None => Raise (name_error "USE_OPENAI")
                     end
                   else Ret false) ;;
    if (use_openai : bool) then
      api_key <- call (Os_getenv (lit "OPENAI_API_KEY")) ;;
      if key_missing api_key then
        Raise (Exc "ValueError"
          (lit "OPENAI_API_KEY environment variable is required but not set"))
      else if LLMBackend_bound g then call (ChatOpenAI (lit "gpt-4") 0)
      else Raise (name_error "LLMBackend")
    else
      api_key <- call (Os_getenv (lit "GOOGLE_API_KEY")) ;;
      if key_missing api_key then
        Raise (Exc "ValueError"
          (lit "GOOGLE_API_KEY environment variable is required but not set"))
      else if ChatGoogleGenerativeAI_bound g then
        call (ChatGoogleGenerativeAI (lit "gemini-2.0-flash") 0)
      else Raise (name_error "ChatGoogleGenerativeAI").

Definition preview_text (preview : pyval) : prog str :=
  if truthy preview then call (Json_dumps preview)
  else Ret (lit "No preview available").

Definition generate_etl_code (g : generator_globals)
    (source_type : str) (source_creds : gmap str pyval)
    (target_type : str) (target_creds : gmap str pyval)
    (transformations : str) (src_preview tgt_preview : pyval) : prog str :=
  llm <- get_llm g ;;
  src_preview_str <- preview_text src_preview ;;
  tgt_preview_str <- preview_text tgt_preview ;;
  source_json <- call (Json_dumps_indent source_creds 2) ;;
  target_json <- call (Json_dumps_indent target_creds 2) ;;
  let prompt :=
    nl ++ lit "You are a Python data engineer. Write a full ETL script without explanations to:" ++ nl
    ++ nl
    ++ lit "1. Connect to source DB (" ++ source_type ++ lit ") using:" ++ nl
    ++ lit "   " ++ source_json ++ nl
    ++ nl
    ++ lit "2. Extract data." ++ nl
    ++ nl
    ++ lit "3. Apply transformations:" ++ nl
    ++ lit "   - " ++ transformations ++ nl
    ++ nl
    ++ lit "4. Load into target DB (" ++ target_type ++ lit ") using:" ++ nl
    ++ lit "   " ++ target_json ++ nl
    ++ nl
    ++ lit "Use appropriate libraries (psycopg2, pymysql, pymongo, pyodbc, sqlite3, pandas) and appropriate parameters for each database type." ++ nl
    ++ lit "You need to use only the connection parameters that are needed for the specific database types." ++ nl
    ++ lit "Include all necessary imports and proper connection handling with try/except blocks." ++ nl
    ++ nl
    ++ lit "Use this sample data as reference for the source:" ++ nl
    ++ src_preview_str ++ nl
    ++ nl
    ++ lit "This is the structure of the target database:" ++ nl
    ++ tgt_preview_str ++ nl
    ++ nl
    ++ lit "Important:" ++ nl
    ++ lit "- Include error handling for all database operations" ++ nl
    ++ lit "- Use pandas for data transformations when appropriate" ++ nl
    ++ lit "- Close all connections properly" ++ nl
    ++ lit "- For SQL databases, create the target table if it doesn't exist" ++ nl
    ++ lit "- For MongoDB, create the collection if it doesn't exist" ++ nl
    ++ lit "- Make the script completely self-contained and executable" ++ nl in
  response_content <- call (Llm_invoke llm prompt) ;;
  Ret (strip_code_block response_content).

(** ** main.py *)

Record DatabaseCredentials : Type := {
  db_type : str;
  credentials : gmap str pyval
}.

Record TransformationRequest : Type := {
  source : DatabaseCredentials;
  target : DatabaseCredentials;
  transformations : str
}.

Record ValidationResponse : Type := {
  success : bool;
  message : str;
  preview : pyval
}.

Record CodeGenerationResponse : Type := {
  code : str
}.

(** [exec_success] is the field [success] of the source (the name is taken
    by [ValidationResponse]). *)
Record ExecutionResponse : Type := {
  exec_success : bool;
  stdout : str;
  stderr : str
}.

(** What the client gets: the returned body, or the status and detail of a
    raised [HTTPException]. *)
Inductive http_result (A : Type) : Type :=
| Body (a : A)
| HTTPException (status_code : Z) (detail : str).
Arguments Body {A} a.
Arguments HTTPException {A} status_code detail.

Definition validate_connection (db_creds : DatabaseCredentials)
  : prog (http_result ValidationResponse) :=
  try_except
    (r <- validate_and_fetch_schema (db_type db_creds) (credentials db_creds) ;;
     let '(status, preview) := r in
     preview <- match preview with
                | VList _ =>
                    try_except (call (Json_roundtrip preview))
                               (fun _ => s <- format_value preview ;; Ret (VStr s))
                | _ => Ret preview
                end ;;
     Ret (Body {| success := negb (startswith status (lit "Error"));
                  message := status;
                  preview := preview |}))
    (fun e => Ret (HTTPException 500 (lit "Validation error: " ++ exn_str e))).

Definition generate_code (g : generator_globals) (request : TransformationRequest)
  : prog (http_result CodeGenerationResponse) :=
  try_except
    (let source_type := db_type (source request) in
     let source_creds := credentials (source request) in
     let target_type := db_type (target request) in
     let target_creds := credentials (target request) in
     let transformations := transformations request in
     src <- validate_and_fetch_schema source_type source_creds ;;
     tgt <- validate_and_fetch_schema target_type target_creds ;;
     etl_code <- generate_etl_code g source_type source_creds target_type
                   target_creds transformations (snd src) (snd tgt) ;;
     Ret (Body {| code := etl_code |}))
    (fun e => Ret (HTTPException 500 (lit "Code generation error: " ++ exn_str e))).

Section ExecuteCode.
(** The lowercase tables of the runtime for code points outside ASCII. *)
Variable unicode_lower : str -> N -> str -> str.

Definition execute_code (code : str) : prog (http_result ExecutionResponse) :=
  try_except
    (r <- run_etl_script code ;;
     let '(stdout, stderr) := r in
     Ret (Body {| exec_success :=
                    negb (negb (str_eqb stderr []))
                    || negb (contains (lower unicode_lower stderr) (lit "error"));
                  stdout := stdout;
                  stderr := stderr |}))
    (fun e => Ret (HTTPException 500 (lit "Execution error: " ++ exn_str e))).
End ExecuteCode.

(** ** Vocabulary of the statements *)

(** *** Logs *)

(** The exception a call raised, if it raised. *)
Definition ev_raised (ev : event) : option exn :=
  match ev_result ev with
  | Raises e => Some e
  | Returns _ => None
  end.

(** Some call of the log raised [e]. *)
Definition raised (log : list event) (e : exn) : Prop :=
  In (Some e) (map ev_raised log).

(** No call of the log raised. *)
Definition quiet (log : list event) : Prop := forall e, ~ raised log e.

(** A program without handler of its own: it returns only when no call
    raised, its result then satisfies [R], and an exception of a call is
    the exception of the program. *)
Definition Straight {A : Type} (R : list event -> A -> Prop) (p : prog A) : Prop :=
  forall (W : Type) (h : env W) (w : W),
    match result_of h p w with
    | Returns a => R (log_of h p w) a /\ quiet (log_of h p w)
    | Raises e => forall e', raised (log_of h p w) e' -> e' = e
    end.

(** What a child process wrote, when the call is [subprocess.run] and it
    returned. *)
Definition subprocess_output (ev : event) : option (str * str) :=
  match ev with
  | Event c r =>
      match c return outcome (lib_result c) -> option (str * str) with
      | Subprocess_run _ =>
          fun r => match r with Returns o => Some o | Raises _ => None end
      | _ => fun _ => None
      end r
  end.

(** The records a [DataFrame.to_dict(orient='records')] call returned. *)
Definition to_dict_records (ev : event) : option pyval :=
  match ev with
  | Event c r =>
      match c return outcome (lib_result c) -> option pyval with
      | DataFrame_to_dict _ orient =>
          fun r => match r with
                   | Returns v => if str_eqb orient (lit "records") then Some v else None
                   | Raises _ => None
                   end
      | _ => fun _ => None
      end r
  end.

(** A call that asks the data store for at most two rows or documents. *)
Definition two_row_query (c : lib_call) : bool :=
  match c with
  | Cursor_execute _ sql =>
      (startswith sql (lit "SELECT * FROM ") && endswith sql (lit " LIMIT 2;"))
      || startswith sql (lit "SELECT TOP 2 * FROM ")
  | Mongo_find_limit _ n => (n =? 2)%Z
  | _ => false
  end.

(** *** Strings *)

(** [sub] occurs in [text]. *)
Definition Substring (sub text : str) : Prop :=
  exists front back, text = front ++ sub ++ back.

(** [c] is the letter [l] in either case ([l] a lowercase ASCII letter). *)
Definition same_letter (l c : N) : Prop := c = l \/ c = l - 32.

(** [word] occurs in [text] when ASCII case is ignored. *)
Definition SubstringIgnoringCase (word text : str) : Prop :=
  exists front found back,
    text = front ++ found ++ back /\ Forall2 same_letter word found.

(** [kept] is [lines] without the lines that contain [marker], the other
    lines as they are and in their order. *)
Inductive KeptLines (marker : str) : list str -> list str -> Prop :=
| kept_done : KeptLines marker [] []
| kept_drop line lines kept :
    Substring marker line -> KeptLines marker lines kept ->
    KeptLines marker (line :: lines) kept
| kept_keep line lines kept :
    ~ Substring marker line -> KeptLines marker lines kept ->
    KeptLines marker (line :: lines) (line :: kept).

(** The two fences of [strip_code_block]. *)
Definition is_fence (f : str) : Prop := f = lit "```python" \/ f = lit "```".

(** [result] is [text] without one leading fence and one trailing fence
    (and without the whitespace around what stood between them). *)
Definition RemovesBothFences (text result : str) : Prop :=
  exists fence middle,
    is_fence fence /\ text = fence ++ middle ++ lit "```" /\ result = strip middle.

(** The length of the leading fence [strip_code_block] removes. *)
Definition leading_fence_length (text : str) : nat :=
  if startswith text (lit "```python") then 9 else 3.

(** The leading fence [strip_code_block] removes from a text that starts
    with one: the [python] fence when the text starts with it, the bare
    fence otherwise. *)
Definition leading_fence (text : str) : str :=
  if startswith text (lit "```python") then lit "```python" else lit "```".

(** *** Credential fields *)

Definition lookup_field (field : str) (table : list (string * string)) : option pyval :=
  match find (fun kd => str_eqb field (lit (fst kd))) table with
  | Some kd => Some (VStr (lit (snd kd)))
  | None => None
  end.

(** The fields each branch of [validate_db_connection] reads with
    [creds.get], with the default it passes. *)
Definition credential_default (db_type field : str) : option pyval :=
  if str_eqb db_type (lit "PostgreSQL") then
    lookup_field field [("host", EmptyString); ("port", "5432"); ("user", EmptyString);
                        ("password", EmptyString); ("database", EmptyString);
                        ("table", EmptyString)]%string
  else if str_eqb db_type (lit "MySQL") then
    lookup_field field [("host", EmptyString); ("port", "3306"); ("user", EmptyString);
                        ("password", EmptyString); ("database", EmptyString);
                        ("table", EmptyString)]%string
  else if str_eqb db_type (lit "MSSQL") then
    lookup_field field [("host", EmptyString); ("port", "1433"); ("user", EmptyString);
                        ("password", EmptyString); ("database", EmptyString);
                        ("table", EmptyString)]%string
  else if str_eqb db_type (lit "MongoDB") then
    lookup_field field [("uri", EmptyString); ("database", EmptyString);
                        ("collection", EmptyString)]%string
  else if str_eqb db_type (lit "SQLite") then
    lookup_field field [("file_path", EmptyString); ("table", EmptyString)]%string
  else None.

Definition supported (db_type : str) : Prop :=
  db_type = lit "PostgreSQL" \/ db_type = lit "MySQL" \/ db_type = lit "MSSQL"
  \/ db_type = lit "MongoDB" \/ db_type = lit "SQLite".



(** Some call of the log asked for at most two rows. *)
Definition asked_two_rows (log : list event) : Prop :=
  existsb two_row_query (map ev_call log) = true.

(** *** Results of the modules *)

(** What a supported branch returns when it returns. *)
Definition preview_pair (log : list event) (r : bool * pyval) : Prop :=
  (exists names rows, r = (true, VTuple [VList names; VList rows]))
  /\ asked_two_rows log.

(** The result of [validate_db_connection] in any environment. *)
Inductive connection_result (db_type : str) (log : list event)
  : outcome (bool * pyval) -> Prop :=
| connection_ok names rows :
    supported db_type -> asked_two_rows log -> quiet log ->
    connection_result db_type log (Returns (true, VTuple [VList names; VList rows]))
| connection_failed e :
    supported db_type -> (forall e', raised log e' -> e' = e) ->
    connection_result db_type log (Returns (false, VStr (exn_str e)))
| connection_unsupported :
    ~ supported db_type -> log = [] ->
    connection_result db_type log
      (Returns (false, VStr (lit "Unsupported database type: " ++ db_type))).

(** The result of [validate_and_fetch_schema] in any environment: a
    connected status with the pair of column names and records, or an
    error status with the empty list. *)
Inductive schema_result (db_type : str) (log : list event)
  : outcome (str * pyval) -> Prop :=
| schema_connected names recs :
    supported db_type -> asked_two_rows log -> quiet log ->
    In (Some recs) (map to_dict_records log) ->
    schema_result db_type log
      (Returns (lit "Connected to " ++ db_type ++ lit " successfully!",
                VTuple [VList names; recs]))
| schema_error msg :
    (forall e, raised log e -> msg = exn_str e) ->
    (~ supported db_type ->
     msg = lit "Unsupported database type: " ++ db_type /\ log = []) ->
    schema_result db_type log (Returns (lit "Error: " ++ msg, VList [])).

(** *** What was read and what was framed *)

(** The events [evs] stand one after the other in [log]. *)
Definition Consecutive (evs log : list event) : Prop :=
  exists before after, log = before ++ evs ++ after.

(** [names] are the items at index [i] of [rows], row after row. *)
Definition items_at (i : nat) (rows : list row) (names : list pyval) : Prop :=
  map (fun r : row => r !! i) rows = map Some names.

(** [data] is what the driver returned for the data query, a query whose
    text asks for at most two rows, and [names] are the column names the
    driver reported: for the three servers the first item of each entry
    of [cursor.description], read right after the rows; for SQLite the
    second item of each row of [PRAGMA table_info], fetched on the same
    cursor after the rows; for MongoDB the keys of the first document. *)
Inductive schema_read (db_type : str) (log : list event)
    (names : list pyval) (data : pyval) : Prop :=
| read_description cursor sql rows description :
    db_type = lit "PostgreSQL" \/ db_type = lit "MySQL" \/ db_type = lit "MSSQL" ->
    two_row_query (Cursor_execute cursor sql) = true ->
    Consecutive [ Event (Cursor_execute cursor sql) (Returns tt);
                  Event (Cursor_fetchall cursor) (Returns rows);
                  Event (Cursor_description cursor) (Returns description) ] log ->
    data = rows_value rows ->
    items_at 0 description names ->
    schema_read db_type log names data
| read_table_info cursor sql rows pragma infos before between after :
    db_type = lit "SQLite" ->
    two_row_query (Cursor_execute cursor sql) = true ->
    startswith pragma (lit "PRAGMA table_info(") = true ->
    log = before
          ++ [ Event (Cursor_execute cursor sql) (Returns tt);
               Event (Cursor_fetchall cursor) (Returns rows) ]
          ++ between
          ++ [ Event (Cursor_execute cursor pragma) (Returns tt);
               Event (Cursor_fetchall cursor) (Returns infos) ]
          ++ after ->
    data = rows_value rows ->
    items_at 1 infos names ->
    schema_read db_type log names data
| read_documents collection docs :
    db_type = lit "MongoDB" ->
    In (Event (Mongo_find_limit collection 2) (Returns docs)) log ->
    data = docs_value docs ->
    names = match docs with first :: _ => map fst first | [] => [] end ->
    schema_read db_type log names data.

(** What a supported branch of [validate_db_connection] returns when it
    returns: the pair of what it read. *)
Definition read_pair (db_type : str) (log : list event) (r : bool * pyval) : Prop :=
  exists names data,
    r = (true, VTuple [VList names; data]) /\ schema_read db_type log names data.

(** [recs] is what [to_dict(orient='records')] returned for the frame
    pandas built from [data] and [names]: for a SQL type
    [pd.DataFrame(data, columns=names)]; for MongoDB the frame of the JSON
    round trip of [data] when there are documents, and
    [pd.DataFrame(columns=names)] when there are none. *)
Inductive framed (db_type : str) (log : list event)
    (names : list pyval) (data recs : pyval) : Prop :=
| framed_rows df :
    db_type <> lit "MongoDB" ->
    Consecutive [ Event (Pandas_DataFrame (Some data) (Some (VList names))) (Returns df);
                  Event (DataFrame_to_dict df (lit "records")) (Returns recs) ] log ->
    framed db_type log names data recs
| framed_documents data_str df :
    db_type = lit "MongoDB" -> truthy data = true ->
    Consecutive [ Event (Json_roundtrip data) (Returns data_str);
                  Event (Pandas_DataFrame (Some data_str) None) (Returns df);
                  Event (DataFrame_to_dict df (lit "records")) (Returns recs) ] log ->
    framed db_type log names data recs
| framed_empty df :
    db_type = lit "MongoDB" -> truthy data = false ->
    Consecutive [ Event (Pandas_DataFrame None (Some (VList names))) (Returns df);
                  Event (DataFrame_to_dict df (lit "records")) (Returns recs) ] log ->
    framed db_type log names data recs.

(** What [run_etl_script] returns for a child process that wrote [out] and
    [err]. *)
Definition filtered_output (out err : str) : str * str :=
  (strip out,
   strip (join nl (List.filter
                     (fun line => negb (contains line (lit "numpy/_core/getlimits.py")))
                     (splitlines err)))).

(** [lower] on ASCII text. *)
Definition ascii_lower (c : N) : N := if (65 <=? c) && (c <=? 90) then c + 32 else c.

(** ** Environments of the examples *)

Definition unexpected_call {A : Type} : outcome A :=
  Raises (Exc "RuntimeError" (lit "unexpected call")).

(** A SQLite file with the table [users(id, name)] and one row.  The state
    is the text of the last statement the cursor executed. *)
Definition users_table_info : list row :=
  [ [VInt 0; VStr (lit "id"); VStr (lit "INTEGER"); VInt 0; VNone; VInt 0];
    [VInt 1; VStr (lit "name"); VStr (lit "TEXT"); VInt 0; VNone; VInt 0] ].

Definition users_rows : list row := [ [VInt 1; VStr (lit "alice")] ].

Definition users_records : pyval :=
  VList [VDict [(VStr (lit "id"), VInt 1); (VStr (lit "name"), VStr (lit "alice"))]].

Definition sqlite_users_env : env str := fun c w =>
  match c as c0 return (outcome (lib_result c0) * str)%type with
  | Sqlite3_connect _ => (Returns 1, w)
  | Connection_cursor _ => (Returns 2, w)
  | Cursor_execute _ sql => (Returns tt, sql)
  | Cursor_fetchall _ =>
      (Returns (if startswith w (lit "PRAGMA table_info(users)") then users_table_info
                else if str_eqb w (lit "SELECT * FROM users LIMIT 2;") then users_rows
                else []), w)
  | Cursor_close _ => (Returns tt, w)
  | Connection_close _ => (Returns tt, w)
  | Pandas_DataFrame _ _ => (Returns 3, w)
  | DataFrame_to_dict _ _ => (Returns users_records, w)
  | _ => (unexpected_call, w)
  end.

Definition sqlite_users_request : DatabaseCredentials :=
  {| db_type := lit "SQLite";
     credentials := <[lit "file_path" := VStr (lit "t.db")]>
                      (<[lit "table" := VStr (lit "users")]> ∅) |}.

(** A server that refuses every connection. *)
Definition refused : exn := Exc "OperationalError" (lit "connection refused").

Definition refusing_env : env unit := fun c w => (Raises refused, w).

(** A machine on which the child process writes [out] and [err]. *)
Definition child_env (out err : str) : env unit := fun c w =>
  match c as c0 return (outcome (lib_result c0) * unit)%type with
  | NamedTemporaryFile _ suffix _ => (Returns (1, lit "/tmp/tmpk3v9" ++ suffix), w)
  | File_write _ _ => (Returns tt, w)
  | File_close _ => (Returns tt, w)
  | Subprocess_run _ => (Returns (out, err), w)
  | Os_unlink _ => (Returns tt, w)
  | _ => (unexpected_call, w)
  end.

Definition warning_and_hello : str :=
  lit "/usr/lib/python3/numpy/_core/getlimits.py:89: UserWarning" ++ nl
  ++ lit "hello" ++ nl.

(** Code points outside ASCII left as they are: enough for ASCII text. *)
Definition no_unicode_lower : str -> N -> str -> str := fun _ c _ => [c].

(** A process environment with [GOOGLE_API_KEY] set and [OPENAI_API_KEY]
    not set. *)
Definition only_google_key_env : env unit := fun c w =>
  match c as c0 return (outcome (lib_result c0) * unit)%type with
  | Os_getenv name =>
      (Returns (if str_eqb name (lit "GOOGLE_API_KEY") then Some (lit "g-key") else None), w)
  | _ => (unexpected_call, w)
  end.

(** The module as imported where only [langchain_openai] (with
    [langchain_core]) is installed. *)
Definition openai_only_globals : generator_globals := import_generator false true true.

(** A PostgreSQL server with a table [users] of three rows; the request
    names the table [users LIMIT 3 --], which turns the rest of the
    statement into a comment. *)
Definition three_users : list row :=
  [ [VInt 1; VStr (lit "alice")]; [VInt 2; VStr (lit "bob")]; [VInt 3; VStr (lit "carol")] ].

Definition three_users_records : pyval :=
  VList [ VDict [(VStr (lit "id"), VInt 1); (VStr (lit "name"), VStr (lit "alice"))];
          VDict [(VStr (lit "id"), VInt 2); (VStr (lit "name"), VStr (lit "bob"))];
          VDict [(VStr (lit "id"), VInt 3); (VStr (lit "name"), VStr (lit "carol"))] ].

Definition postgres_users_env : env str := fun c w =>
  match c as c0 return (outcome (lib_result c0) * str)%type with
  | Psycopg2_connect _ _ _ _ _ => (Returns 1, w)
  | Connection_cursor _ => (Returns 2, w)
  | Cursor_execute _ sql => (Returns tt, sql)
  | Cursor_fetchall _ =>
      (Returns (if str_eqb w (lit "SELECT * FROM users LIMIT 3 -- LIMIT 2;") then three_users
                else if str_eqb w (lit "SELECT * FROM users LIMIT 2;") then take 2 three_users
                else []), w)
  | Cursor_description _ =>
      (Returns [ [VStr (lit "id"); VInt 23; VNone; VNone; VNone; VNone; VNone];
                 [VStr (lit "name"); VInt 25; VNone; VNone; VNone; VNone; VNone] ], w)
  | Cursor_close _ => (Returns tt, w)
  | Connection_close _ => (Returns tt, w)
  | Pandas_DataFrame (Some (VList rows)) _ =>
      (Returns (N.of_nat (length rows)), w)
  | DataFrame_to_dict df _ =>
      (Returns (match three_users_records with
                | VList recs => VList (take (N.to_nat df) recs)
                | v => v
                end), w)
  | _ => (unexpected_call, w)
  end.

Definition postgres_comment_request : DatabaseCredentials :=
  {| db_type := lit "PostgreSQL";
     credentials := <[lit "host" := VStr (lit "db")]>
                      (<[lit "table" := VStr (lit "users LIMIT 3 --")]> ∅) |}.

(** ** Further vocabulary *)

(** All characters of [ws] are whitespace. *)
Definition all_space (ws : str) : Prop := forallb isspace ws = true.

(** A successful [connection.close()] or [client.close()]. *)
Definition is_close_call (c : lib_call) : bool :=
  match c with
  | Connection_close _ | Mongo_close _ => true
  | _ => false
  end.

Definition returned (ev : event) : bool :=
  match ev_result ev with
  | Returns _ => true
  | Raises _ => false
  end.

Definition closes (ev : event) : bool := is_close_call (ev_call ev) && returned ev.

(** The connection was closed in the run. *)
Definition closed (log : list event) : Prop := existsb closes log = true.

(** No call of the program is one of [P], in any environment. *)
Definition Avoids {A : Type} (P : lib_call -> bool) (p : prog A) : Prop :=
  forall (W : Type) (h : env W) (w : W),
    existsb P (map ev_call (log_of h p w)) = false.


(** The prompt sent to the LLM and the text it answered. *)
Definition llm_exchange (ev : event) : option (str * str) :=
  match ev with
  | Event c r =>
      match c return outcome (lib_result c) -> option (str * str) with
      | Llm_invoke _ prompt =>
          fun r => match r with Returns content => Some (prompt, content) | Raises _ => None end
      | _ => fun _ => None
      end r
  end.

(** The credentials [json.dumps(creds, indent=2)] was given and the text
    it returned. *)
Definition creds_dump (ev : event) : option (gmap str pyval * str) :=
  match ev with
  | Event c r =>
      match c return outcome (lib_result c) -> option (gmap str pyval * str) with
      | Json_dumps_indent d indent =>
          fun r => match r with
                   | Returns s => if (indent =? 2)%Z then Some (d, s) else None
                   | Raises _ => None
                   end
      | _ => fun _ => None
      end r
  end.

(** The only line boundary in [text] is the line feed. *)
Definition only_line_feeds (text : str) : Prop :=
  forall c, In c text -> is_linebreak c = true -> c = 10.

(** The stderr [run_etl_script] builds when a step before the child
    process raised [e]. *)
Definition spawn_error (e : exn) : str :=
  10060 :: lit " Error running script: " ++ exn_str e.

Definition is_json_roundtrip (c : lib_call) : bool :=
  match c with
  | Json_roundtrip _ => true
  | _ => false
  end.

Definition is_unlink (c : lib_call) : bool :=
  match c with
  | Os_unlink _ => true
  | _ => false
  end.

Definition marker : str := lit "numpy/_core/getlimits.py".

(** What a returning run of [generate_etl_code] has done: one exchange
    with the LLM whose answer, cleaned, is the result, and whose prompt
    carries the transformation text, the two type names, the two credential
    dumps as [json.dumps] gave them, and [No preview available] in place
    of a preview that is empty. *)
Definition generated (source_type : str) (source_creds : gmap str pyval)
    (target_type : str) (target_creds : gmap str pyval) (instructions : str)
    (src_preview tgt_preview : pyval) (log : list event) (result : str) : Prop :=
  exists prompt content source_json target_json,
    In (Some (prompt, content)) (map llm_exchange log)
    /\ result = strip_code_block content
    /\ In (Some (source_creds, source_json)) (map creds_dump log)
    /\ In (Some (target_creds, target_json)) (map creds_dump log)
    /\ Substring instructions prompt
    /\ Substring source_type prompt
    /\ Substring target_type prompt
    /\ Substring source_json prompt
    /\ Substring target_json prompt
    /\ (truthy src_preview = false ->
        Substring (lit "Use this sample data as reference for the source:" ++ nl
                   ++ lit "No preview available" ++ nl) prompt)
    /\ (truthy tgt_preview = false ->
        Substring (lit "This is the structure of the target database:" ++ nl
                   ++ lit "No preview available" ++ nl) prompt).

(** A machine with both packages installed, [GOOGLE_API_KEY] set, and an
    LLM that answers with a fenced script. *)
Definition fenced_script : str :=
  lit "```python" ++ nl ++ lit "print('loaded')" ++ nl ++ lit "```".

Definition gemini_env : env unit := fun c w =>
  match c as c0 return (outcome (lib_result c0) * unit)%type with
  | Os_getenv name =>
      (Returns (if str_eqb name (lit "GOOGLE_API_KEY") then Some (lit "g-key") else None), w)
  | ChatGoogleGenerativeAI _ _ => (Returns 7, w)
  | Json_dumps _ => (Returns (lit "[]"), w)
  | Json_dumps_indent _ _ => (Returns (lit "{}"), w)
  | Llm_invoke _ _ => (Returns fenced_script, w)
  | _ => (unexpected_call, w)
  end.

Definition all_installed_globals : generator_globals := import_generator true true true.

(** A process environment in which every variable is set to the empty
    string. *)
Definition empty_keys_env : env unit := fun c w =>
  match c as c0 return (outcome (lib_result c0) * unit)%type with
  | Os_getenv _ => (Returns (Some []), w)
  | _ => (unexpected_call, w)
  end.

(** A PostgreSQL server that accepts the connection and rejects the
    query. *)
Definition no_such_table : exn := Exc "UndefinedTable" (lit "relation does not exist").

Definition failing_query_env : env unit := fun c w =>
  match c as c0 return (outcome (lib_result c0) * unit)%type with
  | Psycopg2_connect _ _ _ _ _ => (Returns 1, w)
  | Connection_cursor _ => (Returns 2, w)
  | Cursor_execute _ _ => (Raises no_such_table, w)
  | _ => (unexpected_call, w)
  end.

(** A call that opens a connection to a data store. *)
Definition is_connect (c : lib_call) : bool :=
  match c with
  | Psycopg2_connect _ _ _ _ _ | Pymysql_connect _ _ _ _ _
  | Pyodbc_connect _ | Sqlite3_connect _ | MongoClient _ => true
  | _ => false
  end.

(** The number of connections opened in a run. *)
Definition connections (log : list event) : nat :=
  length (List.filter is_connect (map ev_call log)).

(** The program opens one connection at most, in any environment. *)
Definition OpensOnce {A : Type} (p : prog A) : Prop :=
  forall (W : Type) (h : env W) (w : W), (connections (log_of h p w) <= 1)%nat.
(** ** Facts about the string operations *)

Lemma str_eqb_eq (a b : str) : str_eqb a b = true <-> a = b.
Proof.
  revert b; induction a as [|x a IH]; intros [|y b]; simpl; split;
    try congruence; try discriminate.
  - intros H. apply andb_true_iff in H as [Hx Hab].
    apply N.eqb_eq in Hx. apply IH in Hab. congruence.
  - intros H. injection H as -> ->. rewrite N.eqb_refl. simpl. now apply IH.
Qed.

Lemma str_eqb_refl (a : str) : str_eqb a a = true.
Proof. now apply str_eqb_eq. Qed.

Lemma str_eqb_neq (a b : str) : str_eqb a b = false <-> a <> b.
Proof.
  split.
  - intros H Heq. apply str_eqb_eq in Heq. congruence.
  - intros H. destruct (str_eqb a b) eqn:E; [|reflexivity].
    apply str_eqb_eq in E. contradiction.
Qed.

Lemma startswith_spec (text prefix : str) :
  startswith text prefix = true <-> exists rest, text = prefix ++ rest.
Proof.
  revert text; induction prefix as [|p prefix IH]; intros text; simpl.
  - split; [intros _; now exists text | reflexivity].
  - destruct text as [|c text].
    + split; [discriminate | intros [rest H]; discriminate].
    + rewrite andb_true_iff, N.eqb_eq, IH. split.
      * intros [-> [rest ->]]. now exists rest.
      * intros [rest H]. injection H as -> ->. split; [reflexivity | now exists rest].
Qed.

Lemma startswith_app (prefix rest : str) : startswith (prefix ++ rest) prefix = true.
Proof. apply startswith_spec. now exists rest. Qed.

Lemma endswith_spec (text suffix : str) :
  endswith text suffix = true <-> exists front, text = front ++ suffix.
Proof.
  unfold endswith. rewrite startswith_spec. split.
  - intros [rest H]. exists (rev rest).
    rewrite <- (rev_involutive text), H, rev_app_distr.
    now rewrite rev_involutive.
  - intros [front ->]. exists (rev front). now rewrite rev_app_distr.
Qed.

Lemma endswith_app (front suffix : str) : endswith (front ++ suffix) suffix = true.
Proof. apply endswith_spec. now exists front. Qed.

Lemma endswith_length (text suffix : str) :
  endswith text suffix = true -> (length suffix <= length text)%nat.
Proof.
  intros H. apply endswith_spec in H as [front ->]. rewrite length_app. lia.
Qed.

Lemma startswith_length (text prefix : str) :
  startswith text prefix = true -> (length prefix <= length text)%nat.
Proof.
  intros H. apply startswith_spec in H as [rest ->]. rewrite length_app. lia.
Qed.

(** A suffix of a text that ends with [suffix] does so as well when it is
    long enough, and conversely the text ends as its own suffix does. *)
Lemma endswith_of_tail (front tail suffix : str) :
  endswith tail suffix = true -> endswith (front ++ tail) suffix = true.
Proof.
  intros H. apply endswith_spec in H as [mid ->].
  rewrite app_assoc. apply endswith_app.
Qed.

Lemma endswith_tail_long (front tail suffix : str) :
  endswith (front ++ tail) suffix = true ->
  (length suffix <= length tail)%nat ->
  endswith tail suffix = true.
Proof.
  intros H Hlen. apply endswith_spec in H as [pre H]. apply endswith_spec.
  assert (Hrev : rev tail ++ rev front = rev suffix ++ rev pre)
    by (rewrite <- !rev_app_distr; now f_equal).
  assert (Hl : (length (rev suffix) <= length (rev tail))%nat)
    by (rewrite !length_rev; exact Hlen).
  assert (Hex : exists m, rev tail = rev suffix ++ m).
  { clear - Hrev Hl. revert Hrev Hl. generalize (rev tail) as a, (rev suffix) as b.
    intros a b; revert a. induction b as [|y b IH]; intros a Hrev Hl.
    - now exists a.
    - destruct a as [|x a]; simpl in *; [lia|].
      injection Hrev as -> Hrev. destruct (IH a Hrev ltac:(lia)) as [m ->].
      now exists m. }
  destruct Hex as [m Hm]. exists (rev m).
  rewrite <- (rev_involutive tail), Hm, rev_app_distr. now rewrite rev_involutive.
Qed.

Lemma contains_spec (text sub : str) :
  contains text sub = true <-> exists front back, text = front ++ sub ++ back.
Proof.
  induction text as [|c text IH]; simpl.
  - rewrite orb_false_r, startswith_spec. split.
    + intros [rest H]. now exists [], rest.
    + intros [front [back H]]. destruct front; [now exists back | discriminate].
  - rewrite orb_true_iff, startswith_spec, IH. split.
    + intros [[rest H] | [front [back H]]].
      * now exists [], rest.
      * exists (c :: front), back. simpl. now rewrite H.
    + intros [[|d front] [back H]].
      * left. now exists back.
      * right. injection H as -> H. now exists front, back.
Qed.

(** [lstrip] removes a run of whitespace at the front and nothing else. *)
Lemma lstrip_split (text : str) :
  exists ws, text = ws ++ lstrip text /\ forallb isspace ws = true.
Proof.
  induction text as [|c text [ws [IH Hws]]]; simpl.
  - now exists [].
  - destruct (isspace c) eqn:E.
    + exists (c :: ws). simpl. rewrite E, Hws. split; [now f_equal | reflexivity].
    + now exists [].
Qed.

Lemma lstrip_length (text : str) : (length (lstrip text) <= length text)%nat.
Proof.
  destruct (lstrip_split text) as [ws [H _]].
  rewrite H at 2. rewrite length_app. lia.
Qed.

Lemma rstrip_length (text : str) : (length (rstrip text) <= length text)%nat.
Proof.
  unfold rstrip. rewrite length_rev.
  etransitivity; [apply lstrip_length|]. now rewrite length_rev.
Qed.

Lemma lstrip_head_nonspace (c : N) (text : str) :
  isspace c = false -> lstrip (c :: text) = c :: text.
Proof. intros H. simpl. now rewrite H. Qed.

Lemma lstrip_app_nonspace (middle : str) (c : N) (tail : str) :
  isspace c = false -> lstrip (middle ++ c :: tail) = lstrip middle ++ c :: tail.
Proof.
  intros Hc. induction middle as [|m middle IH]; simpl.
  - now rewrite Hc.
  - destruct (isspace m); [exact IH | reflexivity].
Qed.

(** ** [strip_code_block] *)

Lemma startswith_prefix_of_prefix (text p q : str) :
  startswith text (p ++ q) = true -> startswith text p = true.
Proof.
  intros H. apply startswith_spec in H as [rest ->].
  rewrite <- app_assoc. apply startswith_app.
Qed.

Lemma not_python_when_not_fenced (text : str) :
  startswith text (lit "```") = false -> startswith text (lit "```python") = false.
Proof.
  intros H. destruct (startswith text (lit "```python")) eqn:E; [|reflexivity].
  change (lit "```python") with (lit "```" ++ lit "python") in E.
  apply startswith_prefix_of_prefix in E. congruence.
Qed.

Lemma rstrip_take_shorter (text : str) :
  (3 <= length text)%nat ->
  (length (rstrip (take (length text - 3) text)) < length text)%nat.
Proof.
  intros H. eapply Nat.le_lt_trans; [apply rstrip_length|].
  rewrite length_take. lia.
Qed.

Lemma lstrip_drop_shorter (n : nat) (text : str) :
  (0 < n <= length text)%nat ->
  (length (lstrip (drop n text)) < length text)%nat.
Proof.
  intros H. eapply Nat.le_lt_trans; [apply lstrip_length|].
  rewrite length_drop. lia.
Qed.

(** Removing the leading fence cannot create a trailing one. *)
Lemma no_trailing_fence_after_lstrip_drop (n : nat) (text suffix : str) :
  endswith text suffix = false ->
  endswith (lstrip (drop n text)) suffix = false.
Proof.
  intros H. destruct (endswith (lstrip (drop n text)) suffix) eqn:E; [|reflexivity].
  destruct (lstrip_split (drop n text)) as [ws [Hws _]].
  assert (Hd : endswith (drop n text) suffix = true)
    by (rewrite Hws; now apply endswith_of_tail).
  rewrite <- (take_drop n text) in H.
  rewrite (endswith_of_tail _ _ _ Hd) in H. discriminate.
Qed.

Lemma strip_code_block_unfenced (text : str) :
  startswith text (lit "```") = false ->
  endswith text (lit "```") = false ->
  strip_code_block text = text.
Proof.
  intros Hs He. unfold strip_code_block.
  rewrite (not_python_when_not_fenced _ Hs), Hs, He. reflexivity.
Qed.

Lemma strip_code_block_trailing_only (text : str) :
  startswith text (lit "```") = false ->
  endswith text (lit "```") = true ->
  strip_code_block text = rstrip (take (length text - 3) text).
Proof.
  intros Hs He. unfold strip_code_block.
  rewrite (not_python_when_not_fenced _ Hs), Hs, He. reflexivity.
Qed.

Lemma strip_code_block_leading_only (text : str) :
  startswith text (lit "```") = true ->
  endswith text (lit "```") = false ->
  strip_code_block text = lstrip (drop (leading_fence_length text) text).
Proof.
  intros Hs He. unfold strip_code_block, leading_fence_length.
  destruct (startswith text (lit "```python")) eqn:Hp.
  - change (length (lit "```python")) with 9%nat.
    now rewrite (no_trailing_fence_after_lstrip_drop 9 _ _ He).
  - rewrite Hs. change (length (lit "```")) with 3%nat.
    now rewrite (no_trailing_fence_after_lstrip_drop 3 _ _ He).
Qed.

(** With both fences in place, what remains is the trimmed middle. *)
Lemma strip_code_block_between (fence middle : str) :
  startswith (fence ++ middle ++ lit "```") (lit "```python") = true /\ fence = lit "```python"
  \/ startswith (fence ++ middle ++ lit "```") (lit "```python") = false /\ fence = lit "```" ->
  strip_code_block (fence ++ middle ++ lit "```") = strip middle.
Proof.
  intros H. unfold strip_code_block.
  assert (Hrest : lstrip (middle ++ lit "```") = lstrip middle ++ lit "```")
    by (apply lstrip_app_nonspace; reflexivity).
  assert (Hend : forall m : str,
             (if endswith (m ++ lit "```") (lit "```")
              then rstrip (take (length (m ++ lit "```") - 3) (m ++ lit "```"))
              else m ++ lit "```") = rstrip m).
  { intros m. rewrite endswith_app. f_equal.
    rewrite length_app. change (length (lit "```")) with 3%nat.
    replace (length m + 3 - 3)%nat with (length m) by lia.
    now rewrite take_app_length. }
  destruct H as [[Hp ->] | [Hp ->]].
  - rewrite Hp. rewrite drop_app_length. rewrite Hrest. apply Hend.
  - rewrite Hp. rewrite startswith_app. rewrite drop_app_length. rewrite Hrest. apply Hend.
Qed.

Lemma python_fence_chars : lit "```python" = [96; 96; 96; 112; 121; 116; 104; 111; 110].
Proof. reflexivity. Qed.

Lemma fence_chars : lit "```" = [96; 96; 96].
Proof. reflexivity. Qed.

(** The tail of the [python] fence is no fence: a text that starts with it
    and ends with three backquotes has these after the fence. *)
Lemma python_fence_then_short_tail (rest : str) :
  (length rest < 3)%nat ->
  endswith (lit "```python" ++ rest) (lit "```") = false.
Proof.
  intros Hr. unfold endswith. rewrite rev_app_distr.
  rewrite python_fence_chars, fence_chars.
  destruct rest as [|a [|b [|c rest]]]; simpl in Hr; try lia; simpl;
    try reflexivity; repeat (destruct (_ =? _)%N; simpl; try reflexivity).
Qed.

(** A text of six characters or more that starts with a fence and ends
    with one has the two fences side by side or apart, never overlapping. *)
Lemma fences_apart (text : str) :
  startswith text (lit "```") = true ->
  endswith text (lit "```") = true ->
  (6 <= length text)%nat ->
  exists fence middle,
    text = fence ++ middle ++ lit "```" /\
    (startswith text (lit "```python") = true /\ fence = lit "```python"
     \/ startswith text (lit "```python") = false /\ fence = lit "```").
Proof.
  intros Hs He Hlen.
  destruct (startswith text (lit "```python")) eqn:Hp.
  - apply startswith_spec in Hp as [rest ->].
    destruct (le_lt_dec 3 (length rest)) as [Hr | Hr].
    + apply endswith_tail_long in He; [|exact Hr].
      apply endswith_spec in He as [middle ->].
      exists (lit "```python"), middle. split; [reflexivity|].
      left. split; reflexivity.
    + rewrite (python_fence_then_short_tail rest Hr) in He. discriminate.
  - apply startswith_spec in Hs as [rest ->].
    rewrite length_app in Hlen. change (length (lit "```")) with 3%nat in Hlen.
    apply endswith_tail_long in He; [|simpl; lia].
    apply endswith_spec in He as [middle ->].
    exists (lit "```"), middle. split; [reflexivity|].
    right. split; reflexivity.
Qed.

(** C4 (as stated, refuted): a text of four backquotes starts with a fence
    and ends with one, yet [strip_code_block] leaves one backquote: it has
    removed the leading fence only, and the text has no room for two. *)
Lemma strip_code_block_overlapping_fences :
  startswith (lit "````") (lit "```") = true /\
  endswith (lit "````") (lit "```") = true /\
  strip_code_block (lit "````") = lit "`" /\
  ~ RemovesBothFences (lit "````") (strip_code_block (lit "````")).
Proof.
  repeat split; try reflexivity.
  intros [fence [middle [Hf [H _]]]].
  apply (f_equal (@length N)) in H. rewrite !length_app in H.
  change (length (lit "````")) with 4%nat in H.
  change (length (lit "```")) with 3%nat in H.
  destruct Hf as [-> | ->]; simpl in H; lia.
Qed.

(** C4 (amended).  On text that neither starts with a fence nor ends with
    three backquotes [strip_code_block] changes nothing, so applying it
    twice is applying it once; on text of at least six characters that
    starts with a fence and ends with three backquotes it removes the
    leading fence (the [```python] fence when the text starts with it,
    the bare [```] otherwise) and the three closing backquotes, and trims
    the whitespace around what stood between them: the text is that
    leading fence, a middle and the closing fence, and the result is the
    trimmed middle. *)
Theorem strip_code_block_fences :
  (forall text : str,
      startswith text (lit "```") = false ->
      endswith text (lit "```") = false ->
      strip_code_block text = text /\
      strip_code_block (strip_code_block text) = strip_code_block text) /\
  (forall text : str,
      startswith text (lit "```") = true ->
      endswith text (lit "```") = true ->
      (6 <= length text)%nat ->
      (exists middle,
          text = leading_fence text ++ middle ++ lit "```" /\
          strip_code_block text = strip middle) /\
      RemovesBothFences text (strip_code_block text)).
Proof.
  split.
  - intros text Hs He.
    pose proof (strip_code_block_unfenced text Hs He) as H.
    split; [exact H | now rewrite !H].
  - intros text Hs He Hlen.
    destruct (fences_apart text Hs He Hlen) as [fence [middle [Htext Hfence]]].
    assert (Hresult : strip_code_block text = strip middle).
    { rewrite Htext in Hfence |- *. now apply strip_code_block_between. }
    split.
    + exists middle. split; [|exact Hresult].
      unfold leading_fence.
      destruct Hfence as [[Hp Hf] | [Hp Hf]]; rewrite Hp, <- Hf at 1; exact Htext.
    + exists fence, middle. split; [|split].
      * destruct Hfence as [[_ ->] | [_ ->]]; [now left | now right].
      * exact Htext.
      * exact Hresult.
Qed.

Lemma strip_code_block_fences_witness :
  (strip_code_block (lit "x = 1") = lit "x = 1" /\
   strip_code_block (strip_code_block (lit "x = 1")) = strip_code_block (lit "x = 1")) /\
  ((exists middle,
       lit "```python" ++ nl ++ lit "x = 1" ++ nl ++ lit "```" =
         leading_fence (lit "```python" ++ nl ++ lit "x = 1" ++ nl ++ lit "```")
           ++ middle ++ lit "```" /\
       strip_code_block (lit "```python" ++ nl ++ lit "x = 1" ++ nl ++ lit "```") =
         strip middle) /\
   RemovesBothFences (lit "```python" ++ nl ++ lit "x = 1" ++ nl ++ lit "```")
     (strip_code_block (lit "```python" ++ nl ++ lit "x = 1" ++ nl ++ lit "```"))).
Proof.
  split.
  - apply (proj1 strip_code_block_fences); reflexivity.
  - apply (proj2 strip_code_block_fences); [reflexivity | reflexivity | simpl; lia].
Defined.

(** The [python] fence is the one removed: a block that opens with it
    loses the word [python] too, and no other result would do. *)
Example strip_code_block_removes_python_fence :
  leading_fence (lit "```python" ++ nl ++ lit "x = 1" ++ nl ++ lit "```") = lit "```python" /\
  strip_code_block (lit "```python" ++ nl ++ lit "x = 1" ++ nl ++ lit "```") = lit "x = 1" /\
  forall middle,
    lit "```python" ++ nl ++ lit "x = 1" ++ nl ++ lit "```" =
      lit "```python" ++ middle ++ lit "```" ->
    strip middle = lit "x = 1".
Proof.
  split; [reflexivity | split; [reflexivity|]].
  intros middle H.
  apply app_inv_head in H.
  change (nl ++ lit "x = 1" ++ nl ++ lit "```")
    with ((nl ++ lit "x = 1" ++ nl) ++ lit "```") in H.
  apply app_inv_tail in H. now subst middle.
Qed.

Example strip_code_block_python_block :
  strip_code_block (lit "```python" ++ nl ++ lit "x = 1" ++ nl ++ lit "```") = lit "x = 1".
Proof. reflexivity. Qed.

(** C10.  A one-sided fence is removed as well: a text that ends with
    three backquotes and does not start with a fence loses them and is
    right-stripped; a text that starts with [```python] or [```] and does
    not end with three backquotes loses that fence and is left-stripped.
    In both cases the result differs from the input. *)
Theorem strip_code_block_one_sided :
  (forall text : str,
      startswith text (lit "```") = false ->
      endswith text (lit "```") = true ->
      text = take (length text - 3) text ++ lit "```" /\
      strip_code_block text = rstrip (take (length text - 3) text) /\
      strip_code_block text <> text) /\
  (forall text : str,
      startswith text (lit "```") = true ->
      endswith text (lit "```") = false ->
      is_fence (take (leading_fence_length text) text) /\
      strip_code_block text = lstrip (drop (leading_fence_length text) text) /\
      strip_code_block text <> text).
Proof.
  split.
  - intros text Hs He.
    rewrite (strip_code_block_trailing_only text Hs He).
    pose proof (endswith_length _ _ He) as Hlen.
    change (length (lit "```")) with 3%nat in Hlen.
    split; [|split; [reflexivity|]].
    + apply endswith_spec in He as [front ->].
      rewrite length_app. change (length (lit "```")) with 3%nat.
      replace (length front + 3 - 3)%nat with (length front) by lia.
      now rewrite take_app_length.
    + intros Heq. pose proof (rstrip_take_shorter text Hlen) as Hlt.
      rewrite Heq in Hlt. lia.
  - intros text Hs He.
    rewrite (strip_code_block_leading_only text Hs He).
    split; [|split; [reflexivity|]].
    + unfold leading_fence_length.
      destruct (startswith text (lit "```python")) eqn:Hp.
      * left. apply startswith_spec in Hp as [rest ->].
        now rewrite (take_app_length' (lit "```python") rest 9).
      * right. apply startswith_spec in Hs as [rest ->].
        now rewrite (take_app_length' (lit "```") rest 3).
    + intros Heq.
      assert (Hn : (0 < leading_fence_length text <= length text)%nat).
      { unfold leading_fence_length.
        destruct (startswith text (lit "```python")) eqn:Hp.
        - apply startswith_length in Hp.
          change (length (lit "```python")) with 9%nat in Hp. lia.
        - apply startswith_length in Hs.
          change (length (lit "```")) with 3%nat in Hs. lia. }
      pose proof (lstrip_drop_shorter _ text Hn) as Hlt.
      rewrite Heq in Hlt. lia.
Qed.

Lemma strip_code_block_one_sided_witness :
  (lit "x = 1" ++ nl ++ lit "```" =
     take (length (lit "x = 1" ++ nl ++ lit "```") - 3) (lit "x = 1" ++ nl ++ lit "```")
     ++ lit "```" /\
   strip_code_block (lit "x = 1" ++ nl ++ lit "```") =
     rstrip (take (length (lit "x = 1" ++ nl ++ lit "```") - 3)
                  (lit "x = 1" ++ nl ++ lit "```")) /\
   strip_code_block (lit "x = 1" ++ nl ++ lit "```") <> lit "x = 1" ++ nl ++ lit "```") /\
  (is_fence (take (leading_fence_length (lit "```python" ++ nl ++ lit "x = 1"))
                  (lit "```python" ++ nl ++ lit "x = 1")) /\
   strip_code_block (lit "```python" ++ nl ++ lit "x = 1") =
     lstrip (drop (leading_fence_length (lit "```python" ++ nl ++ lit "x = 1"))
                  (lit "```python" ++ nl ++ lit "x = 1")) /\
   strip_code_block (lit "```python" ++ nl ++ lit "x = 1") <> lit "```python" ++ nl ++ lit "x = 1").
Proof.
  split.
  - apply (proj1 strip_code_block_one_sided); reflexivity.
  - apply (proj2 strip_code_block_one_sided); reflexivity.
Defined.

Example strip_code_block_trailing_fence :
  strip_code_block (lit "x = 1" ++ nl ++ lit "```") = lit "x = 1".
Proof. reflexivity. Qed.

Example strip_code_block_leading_fence :
  strip_code_block (lit "```python" ++ nl ++ lit "x = 1") = lit "x = 1".
Proof. reflexivity. Qed.

(** ** Running programs *)

Lemma run_bind {W A B : Type} (h : env W) (p : prog A) (f : A -> prog B) (w : W) :
  run h (bind p f) w =
  match run h p w with
  | (Returns a, w1, log1) =>
      let '(o, w2, log2) := run h (f a) w1 in (o, w2, log1 ++ log2)
  | (Raises e, w1, log1) => (Raises e, w1, log1)
  end.
Proof.
  revert w. induction p as [a | e | c k IH]; intros w; simpl.
  - now destruct (run h (f a) w) as [[o w2] log2].
  - reflexivity.
  - destruct (h c w) as [r w1]. rewrite IH.
    destruct (run h (k r) w1) as [[[a | e] w2] log1]; [|reflexivity].
    now destruct (run h (f a) w2) as [[o w3] log2].
Qed.

Lemma run_try_except {W A : Type} (h : env W) (p : prog A) (handler : exn -> prog A) (w : W) :
  run h (try_except p handler) w =
  match run h p w with
  | (Returns a, w1, log1) => (Returns a, w1, log1)
  | (Raises e, w1, log1) =>
      let '(o, w2, log2) := run h (handler e) w1 in (o, w2, log1 ++ log2)
  end.
Proof.
  revert w. induction p as [a | e | c k IH]; intros w; simpl.
  - reflexivity.
  - now destruct (run h (handler e) w) as [[o w2] log2].
  - destruct (h c w) as [r w1]. rewrite IH.
    destruct (run h (k r) w1) as [[[a | e] w2] log1]; [reflexivity|].
    now destruct (run h (handler e) w2) as [[o w3] log2].
Qed.

Lemma run_call {W : Type} (h : env W) (c : lib_call) (w : W) :
  run h (call c) w =
  (match fst (h c w) with Returns x => Returns x | Raises e => Raises e end,
   snd (h c w), [Event c (fst (h c w))]).
Proof.
  unfold call. simpl. destruct (h c w) as [[x | e] w1]; reflexivity.
Qed.

(** A handler that only builds a value leaves the log as it is. *)
Lemma run_try_except_value {W A : Type} (h : env W) (p : prog A) (value : exn -> A) (w : W) :
  run h (try_except p (fun e => Ret (value e))) w =
  match run h p w with
  | (Returns a, w1, log1) => (Returns a, w1, log1)
  | (Raises e, w1, log1) => (Returns (value e), w1, log1)
  end.
Proof.
  rewrite run_try_except.
  destruct (run h p w) as [[[a | e] w1] log1]; [reflexivity|].
  simpl. now rewrite app_nil_r.
Qed.

(** *** Raised exceptions in a log *)

Lemma raised_app (log1 log2 : list event) (e : exn) :
  raised (log1 ++ log2) e <-> raised log1 e \/ raised log2 e.
Proof. unfold raised. rewrite map_app. apply in_app_iff. Qed.

Lemma quiet_nil : quiet [].
Proof. intros e H. exact H. Qed.

Lemma quiet_app (log1 log2 : list event) :
  quiet log1 -> quiet log2 -> quiet (log1 ++ log2).
Proof.
  intros H1 H2 e H. apply raised_app in H as [H | H]; [now apply (H1 e) | now apply (H2 e)].
Qed.

Lemma quiet_returned (c : lib_call) (x : lib_result c) (log : list event) :
  quiet log -> quiet (Event c (Returns x) :: log).
Proof.
  intros H e [He | He]; [discriminate | now apply (H e)].
Qed.

(** *** Programs without handlers *)

Lemma Straight_ret {A : Type} (R : list event -> A -> Prop) (a : A) :
  R [] a -> Straight R (Ret a).
Proof. intros H W h w. split; [exact H | apply quiet_nil]. Qed.

Lemma Straight_raise {A : Type} (R : list event -> A -> Prop) (e : exn) :
  Straight R (Raise e).
Proof. intros W h w e' H. destruct H. Qed.

Lemma Straight_weaken {A : Type} (R R' : list event -> A -> Prop) (p : prog A) :
  (forall log a, R log a -> R' log a) -> Straight R p -> Straight R' p.
Proof.
  intros HR Hp W h w. specialize (Hp W h w).
  destruct (result_of h p w); [|exact Hp].
  destruct Hp as [H1 H2]. split; [now apply HR | exact H2].
Qed.

Lemma Straight_bind {A B : Type} (R1 : list event -> A -> Prop)
    (R : list event -> B -> Prop) (p : prog A) (f : A -> prog B) :
  Straight R1 p ->
  (forall a log1, R1 log1 a -> Straight (fun log2 b => R (log1 ++ log2) b) (f a)) ->
  Straight R (bind p f).
Proof.
  intros Hp Hf W h w. specialize (Hp W h w).
  unfold result_of, log_of in *. rewrite run_bind.
  destruct (run h p w) as [[[a | e] w1] log1]; simpl in *; [|exact Hp].
  destruct Hp as [HR1 Hq1]. specialize (Hf a log1 HR1 W h w1).
  unfold result_of, log_of in Hf.
  destruct (run h (f a) w1) as [[[b | e] w2] log2]; simpl in *.
  - destruct Hf as [HR Hq2]. split; [exact HR | now apply quiet_app].
  - intros e' H. apply raised_app in H as [H | H]; [now destruct (Hq1 e') | now apply Hf].
Qed.

(** A call, then the rest: the log of the rest comes after the call. *)
Lemma Straight_call_bind {B : Type} (R : list event -> B -> Prop) (c : lib_call)
    (f : lib_result c -> prog B) :
  (forall x, Straight (fun log2 b => R (Event c (Returns x) :: log2) b) (f x)) ->
  Straight R (bind (call c) f).
Proof.
  intros Hf W h w. unfold result_of, log_of. rewrite run_bind, run_call.
  destruct (h c w) as [[x | e] w1]; simpl.
  - specialize (Hf x W h w1). unfold result_of, log_of in Hf.
    destruct (run h (f x) w1) as [[[b | e] w2] log2]; simpl in *.
    + destruct Hf as [HR Hq]. split; [exact HR | now apply quiet_returned].
    + intros e' [H | H]; [discriminate | now apply Hf].
  - intros e' [H | H]; [now injection H | destruct H].
Qed.

Lemma Straight_call (R : list event -> forall c, lib_result c -> Prop) (c : lib_call) :
  (forall x, R [Event c (Returns x)] c x) -> Straight (fun log x => R log c x) (call c).
Proof.
  intros HR W h w. unfold result_of, log_of. rewrite run_call.
  destruct (h c w) as [[x | e] w1]; simpl.
  - split; [apply HR | apply quiet_returned, quiet_nil].
  - intros e' [H | H]; [now injection H | destruct H].
Qed.

Lemma Straight_call_any (c : lib_call) : Straight (fun _ _ => True) (call c).
Proof. apply (Straight_call (fun _ _ _ => True)). intros x. exact I. Qed.

Lemma Straight_format_value (v : pyval) : Straight (fun _ _ => True) (format_value v).
Proof.
  destruct v; simpl; try exact (Straight_call_any (Builtin_str _)).
  now apply Straight_ret.
Qed.

Lemma Straight_py_int (v : pyval) : Straight (fun _ _ => True) (py_int v).
Proof.
  unfold py_int.
  destruct v as [| | | s | | | |]; try exact (Straight_call_any (Builtin_int _)).
  - now apply Straight_ret.
  - destruct s as [|c s]; [exact (Straight_call_any (Builtin_int _))|].
    destruct (forallb is_digit (c :: s) && (length (c :: s) <=? 640)%nat);
      [now apply Straight_ret | exact (Straight_call_any (Builtin_int _))].
Qed.

Lemma Straight_py_len (v : pyval) : Straight (fun _ _ => True) (py_len v).
Proof.
  destruct v; simpl; try apply Straight_raise; try (now apply Straight_ret).
  exact (Straight_call_any (Builtin_len _)).
Qed.

Lemma Straight_getitem (seq : row) (i : nat) : Straight (fun _ _ => True) (getitem seq i).
Proof.
  unfold getitem. destruct (seq !! i); [now apply Straight_ret | apply Straight_raise].
Qed.

Lemma Straight_comprehension {A B : Type} (f : A -> prog B) (l : list A) :
  (forall x, Straight (fun _ _ => True) (f x)) ->
  Straight (fun _ _ => True) (comprehension f l).
Proof.
  intros Hf. induction l as [|x l IH]; simpl.
  - now apply Straight_ret.
  - apply Straight_bind with (R1 := fun _ _ => True); [apply Hf|].
    intros y log1 _.
    apply Straight_bind with (R1 := fun _ _ => True); [exact IH|].
    intros ys log2 _. now apply Straight_ret.
Qed.

(** ** modules/validator.py *)

Lemma asked_here (ev : event) (log : list event) :
  two_row_query (ev_call ev) = true -> asked_two_rows (ev :: log).
Proof. unfold asked_two_rows. simpl. now intros ->. Qed.

Lemma asked_later (ev : event) (log : list event) :
  asked_two_rows log -> asked_two_rows (ev :: log).
Proof. unfold asked_two_rows. simpl. intros ->. apply orb_true_r. Qed.

Lemma asked_app_r (log1 log2 : list event) :
  asked_two_rows log2 -> asked_two_rows (log1 ++ log2).
Proof.
  unfold asked_two_rows. rewrite map_app, existsb_app. intros ->. apply orb_true_r.
Qed.

Lemma asked_app_l (log1 log2 : list event) :
  asked_two_rows log1 -> asked_two_rows (log1 ++ log2).
Proof.
  unfold asked_two_rows. rewrite map_app, existsb_app. now intros ->.
Qed.

Lemma limit_query_two_rows (cursor : handle) (table : str) :
  two_row_query (Cursor_execute cursor (lit "SELECT * FROM " ++ table ++ lit " LIMIT 2;")) = true.
Proof.
  unfold two_row_query. rewrite startswith_app.
  now rewrite app_assoc, endswith_app.
Qed.

Lemma top_query_two_rows (cursor : handle) (table : str) :
  two_row_query (Cursor_execute cursor (lit "SELECT TOP 2 * FROM " ++ table ++ lit ";")) = true.
Proof.
  unfold two_row_query. rewrite (startswith_app (lit "SELECT TOP 2 * FROM ")).
  apply orb_true_r.
Qed.

Create HintDb straight.
#[local] Hint Resolve Straight_format_value Straight_py_int Straight_py_len
  Straight_getitem Straight_call_any Straight_raise : straight.
#[local] Hint Resolve asked_later asked_app_r : straight.

Ltac straight_step :=
  first [ apply Straight_call_bind; intros ?
        | eapply Straight_bind;
          [ first [ apply Straight_comprehension; intros ?; apply Straight_getitem
                  | solve [eauto with straight] ]
          | intros ? ? ? ] ];
  cbv beta.


Lemma Straight_fetch_with_description (connection : handle) (sql : prog str) :
  Straight (fun _ q => forall cursor, two_row_query (Cursor_execute cursor q) = true) sql ->
  Straight preview_pair (fetch_with_description connection sql).
Proof.
  intros Hsql. unfold fetch_with_description.
  apply Straight_call_bind; intros cursor.
  eapply Straight_bind; [exact Hsql|]. intros q log1 Hq. cbv beta.
  repeat straight_step.
  apply Straight_ret. split; [now eexists _, _|].
  apply asked_later, asked_app_r, asked_here, Hq.
Qed.

Lemma Straight_limit_sql (table : pyval) :
  Straight (fun _ q => forall cursor, two_row_query (Cursor_execute cursor q) = true)
    (bind (format_value table)
          (fun t => Ret (lit "SELECT * FROM " ++ t ++ lit " LIMIT 2;"))).
Proof.
  eapply Straight_bind; [apply Straight_format_value|].
  intros t log1 _. apply Straight_ret. intros cursor. apply limit_query_two_rows.
Qed.

Lemma Straight_top_sql (table : pyval) :
  Straight (fun _ q => forall cursor, two_row_query (Cursor_execute cursor q) = true)
    (bind (format_value table)
          (fun t => Ret (lit "SELECT TOP 2 * FROM " ++ t ++ lit ";"))).
Proof.
  eapply Straight_bind; [apply Straight_format_value|].
  intros t log1 _. apply Straight_ret. intros cursor. apply top_query_two_rows.
Qed.

Lemma preview_pair_later (ev : event) (log : list event) (r : bool * pyval) :
  preview_pair log r -> preview_pair (ev :: log) r.
Proof. intros [H1 H2]. split; [exact H1 | now apply asked_later]. Qed.

Lemma preview_pair_app_r (log1 log2 : list event) (r : bool * pyval) :
  preview_pair log2 r -> preview_pair (log1 ++ log2) r.
Proof. intros [H1 H2]. split; [exact H1 | now apply asked_app_r]. Qed.

(** Decide the comparisons of two literals in the goal. *)
Ltac decide_literals :=
  repeat match goal with
         | |- context [str_eqb (lit ?a) (lit ?b)] =>
             let v := eval vm_compute in (str_eqb (lit a) (lit b)) in
             change (str_eqb (lit a) (lit b)) with v
         end;
  cbv iota.

(** Each supported branch is a program without handler inside the one
    [try] of [validate_db_connection]. *)
Lemma validate_db_connection_supported (db_type : str) (creds : gmap str pyval) :
  supported db_type ->
  exists body,
    validate_db_connection db_type creds
    = try_except body (fun e => Ret (false, VStr (exn_str e)))
    /\ Straight preview_pair body.
Proof.
  intros [-> | [-> | [-> | [-> | ->]]]]; unfold validate_db_connection;
    decide_literals; (eexists; split; [reflexivity|]).
  - apply Straight_call_bind; intros connection. cbv beta.
    eapply Straight_weaken;
      [|apply Straight_fetch_with_description, Straight_limit_sql].
    intros log r. apply preview_pair_later.
  - eapply Straight_bind; [apply Straight_py_int|]. intros port log0 _. cbv beta.
    apply Straight_call_bind; intros connection. cbv beta.
    eapply Straight_weaken;
      [|apply Straight_fetch_with_description, Straight_limit_sql].
    intros log r H. apply preview_pair_app_r, preview_pair_later, H.
  - do 5 straight_step.
    apply Straight_call_bind; intros connection. cbv beta.
    eapply Straight_weaken;
      [|apply Straight_fetch_with_description, Straight_top_sql].
    intros log r Hpair.
    repeat apply preview_pair_app_r. apply preview_pair_later, Hpair.
  - do 5 straight_step.
    apply Straight_ret. split; [now eexists _, _|].
    do 3 apply asked_later. now apply asked_here.
  - do 11 straight_step.
    apply Straight_ret. split; [now eexists _, _|].
    do 2 apply asked_later. apply asked_app_r, asked_here, limit_query_two_rows.
Qed.

Lemma validate_db_connection_unsupported (db_type : str) (creds : gmap str pyval) :
  ~ supported db_type ->
  validate_db_connection db_type creds
  = Ret (false, VStr (lit "Unsupported database type: " ++ db_type)).
Proof.
  intros H. unfold validate_db_connection, supported in *.
  repeat match goal with
         | |- context [str_eqb db_type ?l] =>
             let E := fresh in
             destruct (str_eqb db_type l) eqn:E;
             [apply str_eqb_eq in E; tauto | clear E]
         end.
  reflexivity.
Qed.

Lemma supported_dec (db_type : str) : supported db_type \/ ~ supported db_type.
Proof.
  unfold supported.
  destruct (str_eqb db_type (lit "PostgreSQL")) eqn:E1; [apply str_eqb_eq in E1; tauto|].
  destruct (str_eqb db_type (lit "MySQL")) eqn:E2; [apply str_eqb_eq in E2; tauto|].
  destruct (str_eqb db_type (lit "MSSQL")) eqn:E3; [apply str_eqb_eq in E3; tauto|].
  destruct (str_eqb db_type (lit "MongoDB")) eqn:E4; [apply str_eqb_eq in E4; tauto|].
  destruct (str_eqb db_type (lit "SQLite")) eqn:E5; [apply str_eqb_eq in E5; tauto|].
  apply str_eqb_neq in E1, E2, E3, E4, E5. tauto.
Qed.


Lemma validate_db_connection_result (db_type : str) (creds : gmap str pyval)
    (W : Type) (h : env W) (w : W) :
  connection_result db_type
    (log_of h (validate_db_connection db_type creds) w)
    (result_of h (validate_db_connection db_type creds) w).
Proof.
  destruct (supported_dec db_type) as [Hs | Hs].
  - destruct (validate_db_connection_supported db_type creds Hs) as [body [-> Hbody]].
    specialize (Hbody W h w). unfold result_of, log_of in *.
    rewrite run_try_except_value.
    destruct (run h body w) as [[[r | e] w1] log]; simpl in *.
    + destruct Hbody as [[[names [rows ->]] Hasked] Hquiet]. now constructor.
    + now constructor.
  - rewrite (validate_db_connection_unsupported db_type creds Hs).
    now constructor.
Qed.


Lemma Straight_data_frame (db_type : str) (column_names data : pyval) :
  Straight (fun _ _ => True)
    (if str_eqb db_type (lit "MongoDB") then
       nonempty <- (if truthy data then n <- py_len data ;; Ret (0 <? n)%Z
                    else Ret false) ;;
       if (nonempty : bool) then
         data_str <- call (Json_roundtrip data) ;;
         call (Pandas_DataFrame (Some data_str) None)
       else call (Pandas_DataFrame None (Some column_names))
     else call (Pandas_DataFrame (Some data) (Some column_names))).
Proof.
  destruct (str_eqb db_type (lit "MongoDB"));
    [|exact (Straight_call_any (Pandas_DataFrame _ _))].
  eapply Straight_bind with (R1 := fun _ _ => True).
  - destruct (truthy data); [|now apply Straight_ret].
    eapply Straight_bind; [apply Straight_py_len|].
    intros n log1 _. now apply Straight_ret.
  - intros [|] log1 _; cbv beta.
    + apply Straight_call_bind; intros data_str. cbv beta.
      eapply Straight_weaken; [|exact (Straight_call_any (Pandas_DataFrame _ _))].
      trivial.
    + eapply Straight_weaken; [|exact (Straight_call_any (Pandas_DataFrame _ _))].
      trivial.
Qed.

Lemma to_dict_records_here (df : handle) (recs : pyval) (log : list event) :
  In (Some recs)
     (map to_dict_records (log ++ [Event (DataFrame_to_dict df (lit "records")) (Returns recs)])).
Proof. rewrite map_app. apply in_or_app. right. now left. Qed.

Lemma validate_and_fetch_schema_result (db_type : str) (creds : gmap str pyval)
    (W : Type) (h : env W) (w : W) :
  schema_result db_type
    (log_of h (validate_and_fetch_schema db_type creds) w)
    (result_of h (validate_and_fetch_schema db_type creds) w).
Proof.
  pose proof (validate_db_connection_result db_type creds W h w) as Hconn.
  unfold validate_and_fetch_schema, result_of, log_of in *.
  rewrite run_try_except_value, run_bind.
  destruct (run h (validate_db_connection db_type creds) w) as [[o w1] log1].
  simpl in Hconn. inversion Hconn as [names rows Hs Ha Hq | e Hs He | Hs Hl]; subst.
  - (* connected: the frame is built and turned into records *)
    match goal with
    | |- context [run h ?p w1] =>
        assert (Hp : Straight
                  (fun log2 r => exists recs,
                       r = (lit "Connected to " ++ db_type ++ lit " successfully!",
                            VTuple [VList names; recs])
                       /\ In (Some recs) (map to_dict_records log2)) p)
    end.
    { eapply Straight_bind; [apply Straight_data_frame|].
      intros df log2 _. cbv beta.
      apply Straight_call_bind; intros recs. cbv beta.
      apply Straight_ret. exists recs. split; [reflexivity|].
      change (Event ?c ?r :: []) with ([] ++ [Event c r]).
      rewrite app_assoc. rewrite app_nil_r.
      change (?l ++ ?ev :: []) with (l ++ [ev]). apply to_dict_records_here. }
    specialize (Hp W h w1). unfold result_of, log_of in Hp.
    match goal with
    | |- context [run h ?p w1] => destruct (run h p w1) as [[[r | e] w2] log2]
    end; simpl in *.
    + destruct Hp as [[recs [-> Hin]] Hq2].
      apply schema_connected; [exact Hs | now apply asked_app_l | now apply quiet_app |].
      rewrite map_app. apply in_or_app. now right.
    + apply schema_error.
      * intros e' H. apply raised_app in H as [H | H]; [now destruct (Hq e')|].
        now rewrite (Hp e' H).
      * intros Hn. contradiction.
  - (* the connection failed *)
    simpl. rewrite app_nil_r. apply schema_error.
    + intros e' H. now rewrite (He e' H).
    + intros Hn. contradiction.
  - (* unsupported type *)
    simpl. apply schema_error.
    + intros e' H. destruct H.
    + intros _. split; reflexivity.
Qed.

Lemma schema_result_cases (db_type : str) (log : list event) (o : outcome (str * pyval)) :
  schema_result db_type log o ->
  (exists names recs,
      o = Returns (lit "Connected to " ++ db_type ++ lit " successfully!",
                   VTuple [VList names; recs])
      /\ supported db_type /\ asked_two_rows log /\ quiet log
      /\ In (Some recs) (map to_dict_records log))
  \/ (exists msg,
         o = Returns (lit "Error: " ++ msg, VList [])
         /\ (forall e, raised log e -> msg = exn_str e)
         /\ (~ supported db_type ->
             msg = lit "Unsupported database type: " ++ db_type /\ log = [])).
Proof.
  intros H. destruct H as [names recs Hs Ha Hq Hin | msg Hmsg Hun].
  - left. exists names, recs. auto.
  - right. exists msg. auto.
Qed.

(** *** What the validator read and what it framed *)

Lemma Consecutive_here (evs after : list event) : Consecutive evs (evs ++ after).
Proof. now exists [], after. Qed.

Lemma Consecutive_later (evs : list event) (ev : event) (log : list event) :
  Consecutive evs log -> Consecutive evs (ev :: log).
Proof. intros [before [after ->]]. now exists (ev :: before), after. Qed.

Lemma Consecutive_app_r (evs log1 log2 : list event) :
  Consecutive evs log2 -> Consecutive evs (log1 ++ log2).
Proof.
  intros [before [after ->]]. exists (log1 ++ before), after.
  now rewrite <- app_assoc.
Qed.

Lemma Consecutive_app_l (evs log1 log2 : list event) :
  Consecutive evs log1 -> Consecutive evs (log1 ++ log2).
Proof.
  intros [before [after ->]]. exists before, (after ++ log2).
  now rewrite <- !app_assoc.
Qed.


Lemma schema_read_later (db_type : str) (ev : event) (log : list event)
    (names : list pyval) (data : pyval) :
  schema_read db_type log names data -> schema_read db_type (ev :: log) names data.
Proof.
  intros [cursor sql rows description Hdb Hq Hc Hd Hn
         | cursor sql rows pragma infos before between after Hdb Hq Hp Hlog Hd Hn
         | collection docs Hdb Hin Hd Hn].
  - eapply read_description; eauto using Consecutive_later.
  - eapply read_table_info with (before := ev :: before); eauto.
    now rewrite Hlog.
  - eapply read_documents; eauto. now right.
Qed.

Lemma schema_read_app_r (db_type : str) (log1 log2 : list event)
    (names : list pyval) (data : pyval) :
  schema_read db_type log2 names data -> schema_read db_type (log1 ++ log2) names data.
Proof.
  intros H. induction log1 as [|ev log1 IH]; [exact H|].
  now apply schema_read_later.
Qed.

Lemma schema_read_app_l (db_type : str) (log1 log2 : list event)
    (names : list pyval) (data : pyval) :
  schema_read db_type log1 names data -> schema_read db_type (log1 ++ log2) names data.
Proof.
  intros [cursor sql rows description Hdb Hq Hc Hd Hn
         | cursor sql rows pragma infos before between after Hdb Hq Hp Hlog Hd Hn
         | collection docs Hdb Hin Hd Hn].
  - eapply read_description; eauto using Consecutive_app_l.
  - eapply read_table_info with (before := before) (between := between)
                                (after := after ++ log2); eauto.
    rewrite Hlog. now rewrite <- !app_assoc.
  - eapply read_documents; eauto. apply in_or_app. now left.
Qed.

Lemma schema_read_list (db_type : str) (log : list event)
    (names : list pyval) (data : pyval) :
  schema_read db_type log names data -> exists items, data = VList items.
Proof.
  intros [cursor sql rows description _ _ _ -> _
         | cursor sql rows pragma infos before between after _ _ _ _ -> _
         | collection docs _ _ -> _]; now eexists.
Qed.


Lemma framed_app_r (db_type : str) (log1 log2 : list event)
    (names : list pyval) (data recs : pyval) :
  framed db_type log2 names data recs -> framed db_type (log1 ++ log2) names data recs.
Proof.
  intros [df Hdb Hc | data_str df Hdb Ht Hc | df Hdb Ht Hc].
  - eapply framed_rows; eauto using Consecutive_app_r.
  - eapply framed_documents; eauto using Consecutive_app_r.
  - eapply framed_empty; eauto using Consecutive_app_r.
Qed.



Lemma read_pair_later (db_type : str) (ev : event) (log : list event) (r : bool * pyval) :
  read_pair db_type log r -> read_pair db_type (ev :: log) r.
Proof.
  intros [names [data [-> H]]]. exists names, data.
  split; [reflexivity | now apply schema_read_later].
Qed.

Lemma read_pair_app_r (db_type : str) (log1 log2 : list event) (r : bool * pyval) :
  read_pair db_type log2 r -> read_pair db_type (log1 ++ log2) r.
Proof.
  intros [names [data [-> H]]]. exists names, data.
  split; [reflexivity | now apply schema_read_app_r].
Qed.

(** A call on its own, with what it returned in the log. *)
Lemma Straight_call_last (c : lib_call) (R : list event -> lib_result c -> Prop) :
  (forall x, R [Event c (Returns x)] x) -> Straight R (call c).
Proof.
  intros HR W h w. unfold result_of, log_of. rewrite run_call.
  destruct (h c w) as [[x | e] w1]; simpl.
  - split; [apply HR | apply quiet_returned, quiet_nil].
  - intros e' [H | H]; [now injection H | destruct H].
Qed.

(** The comprehension over the rows gives the items at the index. *)
Lemma Straight_items_at (i : nat) (rows : list row) :
  Straight (fun _ names => items_at i rows names)
    (comprehension (fun r => getitem r i) rows).
Proof.
  induction rows as [|r rows IH]; cbn [comprehension].
  - now apply Straight_ret.
  - apply Straight_bind with (R1 := fun _ y => r !! i = Some y).
    + unfold getitem. destruct (r !! i); [now apply Straight_ret | apply Straight_raise].
    + intros y log1 Hy.
      apply Straight_bind with (R1 := fun _ names => items_at i rows names); [exact IH|].
      intros ys log2 Hys. apply Straight_ret.
      unfold items_at in *. cbn [map]. now rewrite Hy, Hys.
Qed.

Lemma Straight_fetch_reads (db_type : str) (connection : handle) (sql : prog str) :
  db_type = lit "PostgreSQL" \/ db_type = lit "MySQL" \/ db_type = lit "MSSQL" ->
  Straight (fun _ q => forall cursor, two_row_query (Cursor_execute cursor q) = true) sql ->
  Straight (read_pair db_type) (fetch_with_description connection sql).
Proof.
  intros Hdb Hsql. unfold fetch_with_description.
  apply Straight_call_bind; intros cursor.
  eapply Straight_bind; [exact Hsql|]. intros q log1 Hq. cbv beta.
  apply Straight_call_bind; intros executed. cbv beta.
  apply Straight_call_bind; intros result. cbv beta.
  apply Straight_call_bind; intros description. cbv beta.
  eapply Straight_bind; [apply Straight_items_at|]. intros names log2 Hnames. cbv beta.
  apply Straight_call_bind; intros cursor_closed. cbv beta.
  apply Straight_call_bind; intros connection_closed. cbv beta.
  apply Straight_ret. destruct executed.
  exists names, (rows_value result). split; [reflexivity|].
  apply read_description with (cursor := cursor) (sql := q) (rows := result)
                              (description := description);
    [exact Hdb | apply Hq | | reflexivity | exact Hnames].
  eexists (_ :: log1), _. reflexivity.
Qed.

(** Each supported branch returns what it read. *)
Lemma validate_db_connection_reads (db_type : str) (creds : gmap str pyval) :
  supported db_type ->
  exists body,
    validate_db_connection db_type creds
    = try_except body (fun e => Ret (false, VStr (exn_str e)))
    /\ Straight (read_pair db_type) body.
Proof.
  intros [-> | [-> | [-> | [-> | ->]]]]; unfold validate_db_connection;
    decide_literals; (eexists; split; [reflexivity|]).
  - apply Straight_call_bind; intros connection. cbv beta.
    eapply Straight_weaken;
      [|apply (Straight_fetch_reads (lit "PostgreSQL")); [tauto | apply Straight_limit_sql]].
    intros log r. apply read_pair_later.
  - eapply Straight_bind; [apply Straight_py_int|]. intros port log0 _. cbv beta.
    apply Straight_call_bind; intros connection. cbv beta.
    eapply Straight_weaken;
      [|apply (Straight_fetch_reads (lit "MySQL")); [tauto | apply Straight_limit_sql]].
    intros log r H. apply read_pair_app_r, read_pair_later, H.
  - do 5 straight_step.
    apply Straight_call_bind; intros connection. cbv beta.
    eapply Straight_weaken;
      [|apply (Straight_fetch_reads (lit "MSSQL")); [tauto | apply Straight_top_sql]].
    intros log r Hpair.
    repeat apply read_pair_app_r. apply read_pair_later, Hpair.
  - apply Straight_call_bind; intros client. cbv beta.
    apply Straight_call_bind; intros db. cbv beta.
    apply Straight_call_bind; intros collection. cbv beta.
    apply Straight_call_bind; intros result. cbv beta.
    apply Straight_call_bind; intros closed. cbv beta.
    apply Straight_ret. eexists _, _. split; [reflexivity|].
    apply read_documents with (collection := collection) (docs := result);
      [reflexivity | | reflexivity | reflexivity].
    do 3 right. left. reflexivity.
  - apply Straight_call_bind; intros connection. cbv beta.
    apply Straight_call_bind; intros cursor. cbv beta.
    eapply Straight_bind; [apply Straight_format_value|]. intros table log1 _. cbv beta.
    apply Straight_call_bind; intros executed. cbv beta.
    apply Straight_call_bind; intros result. cbv beta.
    eapply Straight_bind; [apply Straight_format_value|]. intros table' log2 _. cbv beta.
    apply Straight_call_bind; intros executed'. cbv beta.
    apply Straight_call_bind; intros infos. cbv beta.
    eapply Straight_bind; [apply Straight_items_at|]. intros names log3 Hnames. cbv beta.
    apply Straight_call_bind; intros cursor_closed. cbv beta.
    apply Straight_call_bind; intros connection_closed. cbv beta.
    apply Straight_ret. destruct executed, executed'.
    exists names, (rows_value result). split; [reflexivity|].
    apply read_table_info
      with (cursor := cursor)
           (sql := lit "SELECT * FROM " ++ table ++ lit " LIMIT 2;")
           (rows := result)
           (pragma := lit "PRAGMA table_info(" ++ table' ++ lit ");")
           (infos := infos)
           (before := [Event (Sqlite3_connect (dict_get creds "file_path" EmptyString))
                             (Returns connection);
                       Event (Connection_cursor connection) (Returns cursor)] ++ log1)
           (between := log2)
           (after := log3 ++ [Event (Cursor_close cursor) (Returns cursor_closed);
                              Event (Connection_close connection)
                                    (Returns connection_closed)]);
      [reflexivity | apply limit_query_two_rows | apply startswith_app
      | reflexivity | reflexivity | exact Hnames].
Qed.

(** The frame is built from the data and the names, as the type of the
    database asks. *)
Lemma Straight_frame (db_type : str) (names items : list pyval) :
  Straight
    (fun log df =>
       forall recs,
         framed db_type
           (log ++ [Event (DataFrame_to_dict df (lit "records")) (Returns recs)])
           names (VList items) recs)
    (if str_eqb db_type (lit "MongoDB") then
       nonempty <- (if truthy (VList items) then
                      n <- py_len (VList items) ;; Ret (0 <? n)%Z
                    else Ret false) ;;
       if (nonempty : bool) then
         data_str <- call (Json_roundtrip (VList items)) ;;
         call (Pandas_DataFrame (Some data_str) None)
       else call (Pandas_DataFrame None (Some (VList names)))
     else call (Pandas_DataFrame (Some (VList items)) (Some (VList names)))).
Proof.
  destruct (str_eqb db_type (lit "MongoDB")) eqn:E.
  - apply str_eqb_eq in E.
    apply Straight_bind
      with (R1 := fun log b => log = [] /\ b = truthy (VList items)).
    + destruct items as [|item items]; cbn [truthy py_len].
      * now apply Straight_ret.
      * apply Straight_bind
          with (R1 := fun log n => log = [] /\ n = Z.of_nat (length (item :: items))).
        -- now apply Straight_ret.
        -- intros n log1 [-> ->]. now apply Straight_ret.
    + intros nonempty log1 [-> ->].
      destruct (truthy (VList items)) eqn:Ht.
      * apply Straight_call_bind; intros data_str. cbv beta.
        apply (Straight_call_last (Pandas_DataFrame (Some data_str) None)).
        intros df recs.
        apply framed_documents with (data_str := data_str) (df := df);
          [exact E | exact Ht | now exists [], []].
      * apply (Straight_call_last (Pandas_DataFrame None (Some (VList names)))).
        intros df recs.
        apply framed_empty with (df := df); [exact E | exact Ht | now exists [], []].
  - apply str_eqb_neq in E.
    apply (Straight_call_last (Pandas_DataFrame (Some (VList items)) (Some (VList names)))).
    intros df recs.
    apply framed_rows with (df := df); [exact E | now exists [], []].
Qed.

(** [validate_and_fetch_schema] answers with an error status, or with
    the names it read and the records of the frame of what it read. *)
Lemma validate_and_fetch_schema_reads (db_type : str) (creds : gmap str pyval)
    (W : Type) (h : env W) (w : W) :
  exists status pv,
    result_of h (validate_and_fetch_schema db_type creds) w = Returns (status, pv)
    /\ (startswith status (lit "Error") = true
        \/ exists names data recs,
            pv = VTuple [VList names; recs]
            /\ schema_read db_type
                 (log_of h (validate_and_fetch_schema db_type creds) w) names data
            /\ framed db_type
                 (log_of h (validate_and_fetch_schema db_type creds) w) names data recs).
Proof.
  destruct (supported_dec db_type) as [Hs | Hs].
  - destruct (validate_db_connection_reads db_type creds Hs) as [body [Hbody Hstraight]].
    unfold validate_and_fetch_schema, result_of, log_of. rewrite Hbody.
    rewrite run_try_except_value, run_bind, run_try_except_value.
    specialize (Hstraight W h w). unfold result_of, log_of in Hstraight.
    destruct (run h body w) as [[[r | e] w1] log1]; cbn [fst snd] in Hstraight.
    + destruct Hstraight as [[names [data [-> Hread]]] _].
      destruct (schema_read_list _ _ _ _ Hread) as [items ->].
      match goal with
      | |- context [run h ?p w1] =>
          assert (Hp : Straight
                    (fun log2 r => exists recs,
                         r = (lit "Connected to " ++ db_type ++ lit " successfully!",
                              VTuple [VList names; recs])
                         /\ framed db_type log2 names (VList items) recs) p)
      end.
      { eapply Straight_bind; [apply Straight_frame|].
        intros df log2 Hframed. cbv beta.
        apply Straight_call_bind; intros recs. cbv beta.
        apply Straight_ret. exists recs. split; [reflexivity|].
        apply (Hframed recs). }
      specialize (Hp W h w1). unfold result_of, log_of in Hp.
      match goal with
      | |- context [run h ?p w1] => destruct (run h p w1) as [[[r | e] w2] log2]
      end; cbn [fst snd] in *.
      * destruct Hp as [[recs [-> Hf]] _].
        eexists _, _. split; [reflexivity|]. right.
        exists names, (VList items), recs. split; [reflexivity|].
        split; [now apply schema_read_app_l | now apply framed_app_r].
      * eexists _, _. split; [reflexivity|]. left. reflexivity.
    + eexists _, _. split; [reflexivity|]. left. reflexivity.
  - unfold validate_and_fetch_schema.
    rewrite (validate_db_connection_unsupported db_type creds Hs).
    eexists _, _. split; [reflexivity|]. left. reflexivity.
Qed.

(** *** Credentials and their defaults *)

Lemma dict_get_insert_other (creds : gmap str pyval) (f : str) (d : pyval)
    (key default : string) :
  f <> lit key ->
  dict_get (<[f := d]> creds) key default = dict_get creds key default.
Proof. intros H. unfold dict_get. now rewrite lookup_insert_ne. Qed.

Lemma dict_get_insert_default (creds : gmap str pyval) (d : pyval)
    (key default : string) :
  d = VStr (lit default) ->
  creds !! lit key = None ->
  dict_get (<[lit key := d]> creds) key default = dict_get creds key default.
Proof. intros -> H. unfold dict_get. now rewrite lookup_insert_eq, H. Qed.

Ltac literals_differ :=
  let H := fresh in intros H; vm_compute in H; discriminate H.

(** Rewrite every [creds.get] on the updated dictionary to one on the
    dictionary itself. *)
Ltac forget_insert :=
  repeat match goal with
         | |- context [dict_get (<[lit ?f := ?d]> ?c) ?k ?df] =>
             first [ rewrite (dict_get_insert_other c (lit f) d k df) by literals_differ
                   | rewrite (dict_get_insert_default c d k df) by (assumption || reflexivity) ]
         end.

Lemma lookup_field_cons (field : str) (k d : string) (table : list (string * string)) :
  lookup_field field ((k, d) :: table)
  = if str_eqb field (lit k) then Some (VStr (lit d)) else lookup_field field table.
Proof. unfold lookup_field. simpl. now destruct (str_eqb field (lit k)). Qed.

Lemma lookup_field_nil (field : str) : lookup_field field [] = None.
Proof. reflexivity. Qed.

(** Split a lookup in the table of defaults into its cases. *)
Ltac table_cases H :=
  repeat (rewrite lookup_field_cons in H;
          let E := fresh "E" in
          destruct (str_eqb _ _) eqn:E in H;
          [ apply str_eqb_eq in E; injection H as <-; subst | ]);
  try (rewrite lookup_field_nil in H; discriminate H).

Lemma absent_field_is_default (db_type field : str) (d : pyval) (creds : gmap str pyval) :
  credential_default db_type field = Some d ->
  creds !! field = None ->
  validate_db_connection db_type creds
  = validate_db_connection db_type (<[field := d]> creds).
Proof.
  intros Hd Habsent. unfold credential_default in Hd.
  repeat match type of Hd with
         | context [str_eqb db_type ?l] =>
             let E := fresh "Edb" in
             destruct (str_eqb db_type l) eqn:E;
             [ apply str_eqb_eq in E; subst db_type | clear E ]
         end; try discriminate Hd;
    table_cases Hd; unfold validate_db_connection; decide_literals;
    forget_insert; reflexivity.
Qed.

Lemma default_is_empty_or_port (db_type field : str) (d : pyval) :
  credential_default db_type field = Some d ->
  d = VStr [] \/
  field = lit "port" /\
  (db_type = lit "PostgreSQL" /\ d = VStr (lit "5432")
   \/ db_type = lit "MySQL" /\ d = VStr (lit "3306")
   \/ db_type = lit "MSSQL" /\ d = VStr (lit "1433")).
Proof.
  intros Hd. unfold credential_default in Hd.
  repeat match type of Hd with
         | context [str_eqb db_type ?l] =>
             let E := fresh "Edb" in
             destruct (str_eqb db_type l) eqn:E;
             [ apply str_eqb_eq in E; subst db_type | clear E ]
         end; try discriminate Hd;
    table_cases Hd; try (left; reflexivity); right; (split; [reflexivity|]); tauto.
Qed.

(** A field outside the table is not read at all. *)
Lemma other_field_ignored (db_type field : str) (v : pyval) (creds : gmap str pyval) :
  credential_default db_type field = None ->
  validate_db_connection db_type (<[field := v]> creds)
  = validate_db_connection db_type creds.
Proof.
  intros Hd. unfold credential_default in Hd. unfold validate_db_connection.
  repeat match type of Hd with
         | context [str_eqb db_type ?l] =>
             let E := fresh "Edb" in
             destruct (str_eqb db_type l) eqn:E
         end; try reflexivity;
    repeat (rewrite lookup_field_cons in Hd;
            let E := fresh "E" in
            destruct (str_eqb _ _) eqn:E in Hd; [discriminate Hd | apply str_eqb_neq in E]);
    repeat match goal with
           | |- context [dict_get (<[field := v]> creds) ?k ?df] =>
               rewrite (dict_get_insert_other creds field v k df) by assumption
           end;
    reflexivity.
Qed.

(** C6 (as stated, refuted): with no [port] among the credentials the
    PostgreSQL connection is opened with port ["5432"], not with an empty
    string; the run differs from the one with an empty [port]. *)
Lemma absent_port_is_not_empty :
  (∅ : gmap str pyval) !! lit "port" = None /\
  first_call (validate_db_connection (lit "PostgreSQL") ∅)
  = Some (Psycopg2_connect (VStr []) (VStr (lit "5432")) (VStr []) (VStr []) (VStr [])) /\
  validate_db_connection (lit "PostgreSQL") ∅
  <> validate_db_connection (lit "PostgreSQL") (<[lit "port" := VStr []]> ∅).
Proof.
  split; [reflexivity|]. split; [reflexivity|].
  intros H. apply (f_equal first_call) in H. vm_compute in H. discriminate H.
Qed.

(** C6 (amended).  For every supported database type, a credential field
    the branch reads and that is absent from the credentials behaves as if
    it were present with its default: the empty string, except for [port],
    whose default is the standard port of the server (["5432"] PostgreSQL,
    ["3306"] MySQL, ["1433"] MSSQL); fields outside the table are not read
    at all. *)
Theorem absent_credential_default :
  forall (db_type field : str) (d : pyval) (creds : gmap str pyval),
    credential_default db_type field = Some d ->
    creds !! field = None ->
    validate_db_connection db_type creds
    = validate_db_connection db_type (<[field := d]> creds)
    /\ (d = VStr [] \/
        field = lit "port" /\
        (db_type = lit "PostgreSQL" /\ d = VStr (lit "5432")
         \/ db_type = lit "MySQL" /\ d = VStr (lit "3306")
         \/ db_type = lit "MSSQL" /\ d = VStr (lit "1433")))
    /\ (forall other v,
           credential_default db_type other = None ->
           validate_db_connection db_type (<[other := v]> creds)
           = validate_db_connection db_type creds).
Proof.
  intros db_type field d creds Hd Habsent. split; [|split].
  - now apply absent_field_is_default.
  - now apply default_is_empty_or_port with (field := field).
  - intros other v Hother. now apply other_field_ignored.
Qed.

Lemma absent_credential_default_witness :
  validate_db_connection (lit "SQLite") ∅
  = validate_db_connection (lit "SQLite") (<[lit "file_path" := VStr []]> ∅).
Proof.
  apply (absent_credential_default (lit "SQLite") (lit "file_path") (VStr []) ∅);
    reflexivity.
Defined.

(** The calls that open the connection when every field is absent. *)
Example connect_defaults_mysql :
  first_call (validate_db_connection (lit "MySQL") ∅)
  = Some (Pymysql_connect (VStr []) 3306 (VStr []) (VStr []) (VStr [])).
Proof. reflexivity. Qed.

Example connect_defaults_mssql :
  first_call (validate_db_connection (lit "MSSQL") ∅)
  = Some (Pyodbc_connect
            (lit "DRIVER={ODBC Driver 17 for SQL Server};SERVER=;PORT=1433;UID=;PWD=;DATABASE=")).
Proof. reflexivity. Qed.

Example connect_defaults_mongodb :
  first_call (validate_db_connection (lit "MongoDB") ∅) = Some (MongoClient (VStr [])).
Proof. reflexivity. Qed.

Example connect_defaults_sqlite :
  first_call (validate_db_connection (lit "SQLite") ∅) = Some (Sqlite3_connect (VStr [])).
Proof. reflexivity. Qed.

(** C8.  For a database type outside the five supported ones the
    connection check returns failure with the message
    [Unsupported database type: <type>], the preview carries that message
    in its error status together with the empty list, and no library call
    is made at all, so no connection is attempted. *)
Theorem unsupported_db_type :
  forall (db_type : str) (creds : gmap str pyval),
    ~ supported db_type ->
    validate_db_connection db_type creds
    = Ret (false, VStr (lit "Unsupported database type: " ++ db_type))
    /\ validate_and_fetch_schema db_type creds
       = Ret (lit "Error: " ++ lit "Unsupported database type: " ++ db_type, VList [])
    /\ forall (W : Type) (h : env W) (w : W),
         log_of h (validate_and_fetch_schema db_type creds) w = [].
Proof.
  intros db_type creds Hn.
  pose proof (validate_db_connection_unsupported db_type creds Hn) as H.
  assert (H2 : validate_and_fetch_schema db_type creds
               = Ret (lit "Error: " ++ lit "Unsupported database type: " ++ db_type, VList []))
    by (unfold validate_and_fetch_schema; rewrite H; reflexivity).
  split; [exact H|]. split; [exact H2|].
  intros W h w. now rewrite H2.
Qed.

Lemma oracle_is_not_supported : ~ supported (lit "Oracle").
Proof.
  intros [H | [H | [H | [H | H]]]]; vm_compute in H; discriminate H.
Defined.

Lemma unsupported_db_type_witness :
  validate_db_connection (lit "Oracle") ∅
  = Ret (false, VStr (lit "Unsupported database type: Oracle"))
  /\ validate_and_fetch_schema (lit "Oracle") ∅
     = Ret (lit "Error: Unsupported database type: Oracle", VList [])
  /\ forall (W : Type) (h : env W) (w : W),
       log_of h (validate_and_fetch_schema (lit "Oracle") ∅) w = [].
Proof.
  exact (unsupported_db_type (lit "Oracle") ∅ oracle_is_not_supported).
Defined.

(** C3.  [validate_and_fetch_schema] returns in every environment, and
    when a call of a driver or of a library raised, the status is
    [Error: ] followed by the text of that exception and the preview is the
    empty list.  [validate_db_connection] returns in every environment as
    well, with [False] and the text of the exception when a call raised. *)
Theorem validate_and_fetch_schema_never_raises :
  forall (W : Type) (h : env W) (w : W) (db_type : str) (creds : gmap str pyval),
  (exists status preview,
      result_of h (validate_and_fetch_schema db_type creds) w = Returns (status, preview)
      /\ forall e,
          raised (log_of h (validate_and_fetch_schema db_type creds) w) e ->
          status = lit "Error: " ++ exn_str e /\ preview = VList [])
  /\ (exists ok result,
        result_of h (validate_db_connection db_type creds) w = Returns (ok, result)
        /\ forall e,
            raised (log_of h (validate_db_connection db_type creds) w) e ->
            ok = false /\ result = VStr (exn_str e)).
Proof.
  intros W h w db_type creds. split.
  - destruct (schema_result_cases _ _ _ (validate_and_fetch_schema_result db_type creds W h w))
      as [[names [recs [Heq [Hs [Ha [Hq Hin]]]]]] | [msg [Heq [Hmsg Hun]]]].
    + eexists _, _. split; [exact Heq|]. intros e He. now destruct (Hq e).
    + eexists _, _. split; [exact Heq|]. intros e He. now rewrite (Hmsg e He).
  - destruct (validate_db_connection_result db_type creds W h w)
      as [names rows Hs Ha Hq | e0 Hs He | Hs Hl].
    + eexists _, _. split; [reflexivity|]. intros e He. now destruct (Hq e).
    + eexists _, _. split; [reflexivity|]. intros e He'. now rewrite (He e He').
    + eexists _, _. split; [reflexivity|]. intros e He. rewrite Hl in He. destruct He.
Qed.

Lemma validate_and_fetch_schema_never_raises_witness :
  result_of refusing_env (validate_and_fetch_schema (lit "MySQL") ∅) tt
  = Returns (lit "Error: connection refused", VList []).
Proof.
  destruct (validate_and_fetch_schema_never_raises unit refusing_env tt (lit "MySQL") ∅)
    as [[status [preview [Hres Hraised]]] _].
  destruct (Hraised refused) as [Hs Hp].
  - left. reflexivity.
  - rewrite Hres, Hs, Hp. reflexivity.
Defined.

(** *** POST /validate *)

Lemma connected_status_is_no_error (db_type : str) :
  startswith (lit "Connected to " ++ db_type ++ lit " successfully!") (lit "Error") = false.
Proof. reflexivity. Qed.

Lemma error_status_is_error (msg : str) :
  startswith (lit "Error: " ++ msg) (lit "Error") = true.
Proof. reflexivity. Qed.

(** The handler after the schema was fetched: it answers with a body that
    carries the status, or, when the preview is a list and both of its
    conversions raised, with an [HTTPException]. *)
Lemma validate_connection_after_schema (db_creds : DatabaseCredentials)
    (W : Type) (h : env W) (w : W) (status : str) (pv : pyval) :
  result_of h (validate_and_fetch_schema (db_type db_creds) (credentials db_creds)) w
  = Returns (status, pv) ->
  exists r log2,
    result_of h (validate_connection db_creds) w = Returns r
    /\ log_of h (validate_connection db_creds) w
       = log_of h (validate_and_fetch_schema (db_type db_creds) (credentials db_creds)) w
         ++ log2
    /\ match r with
       | Body resp =>
           message resp = status
           /\ success resp = negb (startswith status (lit "Error"))
           /\ ((forall l, pv <> VList l) -> preview resp = pv)
       | HTTPException code _ => code = 500%Z /\ exists l, pv = VList l
       end.
Proof.
  unfold validate_connection, result_of, log_of.
  rewrite run_try_except_value, run_bind.
  destruct (run h (validate_and_fetch_schema _ _) w) as [[o w1] log1].
  cbn [fst snd]. intros ->.
  destruct pv as [| b | n | s | l | l | d | cls text];
    try (simpl; eexists _, []; rewrite app_nil_r;
         split; [reflexivity|]; split; [reflexivity|];
         simpl; split; [reflexivity|]; split; reflexivity).
  cbv beta iota. rewrite run_bind, run_try_except.
  unfold format_value, call. cbn [run bind].
  destruct (h (Json_roundtrip (VList l)) w1) as [[v | e] w2]; simpl.
  - eexists _, _. split; [reflexivity|]. split; [reflexivity|].
    simpl. split; [reflexivity|]. split; [reflexivity|].
    intros Hl. now destruct (Hl l).
  - destruct (h (Builtin_str (VList l)) w2) as [[s | e2] w3]; simpl.
    + eexists _, _. split; [reflexivity|]. split; [reflexivity|].
      simpl. split; [reflexivity|]. split; [reflexivity|].
      intros Hl. now destruct (Hl l).
    + eexists _, _. split; [reflexivity|]. split; [reflexivity|].
      simpl. split; [reflexivity | now exists l].
Qed.

(** C2.  The status of [validate_and_fetch_schema] starts with [Error] or
    is exactly [Connected to <db_type> successfully!]; POST /validate
    answers with that status as message and with [success] true exactly
    when the status does not start with [Error] (it answers so whenever the
    status is no error, and otherwise unless the conversions of the empty
    preview both raise). *)
Theorem status_prefix_contract :
  forall (W : Type) (h : env W) (w : W) (db_creds : DatabaseCredentials),
  exists status pv,
    result_of h (validate_and_fetch_schema (db_type db_creds) (credentials db_creds)) w
    = Returns (status, pv)
    /\ (startswith status (lit "Error") = true
        \/ status = lit "Connected to " ++ db_type db_creds ++ lit " successfully!")
    /\ exists r,
        result_of h (validate_connection db_creds) w = Returns r
        /\ match r with
           | Body resp =>
               message resp = status
               /\ (success resp = true <-> startswith status (lit "Error") = false)
           | HTTPException code _ =>
               code = 500%Z /\ startswith status (lit "Error") = true
           end.
Proof.
  intros W h w db_creds.
  destruct (schema_result_cases _ _ _
              (validate_and_fetch_schema_result (db_type db_creds) (credentials db_creds) W h w))
    as [[names [recs [Heq [Hs [Ha [Hq Hin]]]]]] | [msg [Heq [Hmsg Hun]]]].
  - destruct (validate_connection_after_schema db_creds W h w _ _ Heq)
      as [r [log2 [Hr [_ Hshape]]]].
    eexists _, _. split; [exact Heq|]. split; [now right|].
    exists r. split; [exact Hr|].
    destruct r as [resp | code detail].
    + destruct Hshape as [Hm [Hsuccess _]]. split; [exact Hm|].
      rewrite Hsuccess, connected_status_is_no_error. now split.
    + destruct Hshape as [_ [l Hl]]. discriminate Hl.
  - destruct (validate_connection_after_schema db_creds W h w _ _ Heq)
      as [r [log2 [Hr [_ Hshape]]]].
    eexists _, _. split; [exact Heq|]. split; [left; apply error_status_is_error|].
    exists r. split; [exact Hr|].
    destruct r as [resp | code detail].
    + destruct Hshape as [Hm [Hsuccess _]]. split; [exact Hm|].
      rewrite Hsuccess, error_status_is_error. simpl. split; discriminate.
    + destruct Hshape as [Hc _]. split; [exact Hc | apply error_status_is_error].
Qed.

Example validate_sqlite_users :
  result_of sqlite_users_env (validate_connection sqlite_users_request) []
  = Returns (Body {| success := true;
                     message := lit "Connected to SQLite successfully!";
                     preview := VTuple [VList [VStr (lit "id"); VStr (lit "name")];
                                        users_records] |}).
Proof. reflexivity. Qed.




(** In the SQLite scenario the names are those of [PRAGMA table_info],
    the data are the rows of the table, and the records are those of the
    frame built from these rows and these names. *)
Example validate_sqlite_users_read :
  schema_read (lit "SQLite")
    (log_of sqlite_users_env (validate_connection sqlite_users_request) [])
    [VStr (lit "id"); VStr (lit "name")] (rows_value users_rows)
  /\ framed (lit "SQLite")
       (log_of sqlite_users_env (validate_connection sqlite_users_request) [])
       [VStr (lit "id"); VStr (lit "name")] (rows_value users_rows) users_records.
Proof.
  split.
  - apply read_table_info
      with (cursor := 2%N)
           (sql := lit "SELECT * FROM users LIMIT 2;")
           (rows := users_rows)
           (pragma := lit "PRAGMA table_info(users);")
           (infos := users_table_info)
           (before := [Event (Sqlite3_connect (VStr (lit "t.db"))) (Returns 1%N);
                       Event (Connection_cursor 1) (Returns 2%N)])
           (between := [])
           (after := [Event (Cursor_close 2) (Returns tt);
                      Event (Connection_close 1) (Returns tt);
                      Event (Pandas_DataFrame
                               (Some (rows_value users_rows))
                               (Some (VList [VStr (lit "id"); VStr (lit "name")])))
                            (Returns 3%N);
                      Event (DataFrame_to_dict 3 (lit "records")) (Returns users_records)]);
      reflexivity.
  - apply framed_rows with (df := 3%N).
    + intros H. vm_compute in H. discriminate H.
    + exists (take 8 (log_of sqlite_users_env (validate_connection sqlite_users_request) [])),
             [].
      reflexivity.
Qed.

(** The number of rows in the preview is the number of rows the driver
    returned for the statement: the table name is inserted into the
    statement as it is. *)
Example preview_rows_are_the_drivers :
  result_of postgres_users_env (validate_connection postgres_comment_request) []
  = Returns (Body {| success := true;
                     message := lit "Connected to PostgreSQL successfully!";
                     preview := VTuple [VList [VStr (lit "id"); VStr (lit "name")];
                                        three_users_records] |})
  /\ In (Cursor_execute 2 (lit "SELECT * FROM users LIMIT 3 -- LIMIT 2;"))
        (map ev_call (log_of postgres_users_env
                             (validate_connection postgres_comment_request) [])).
Proof. split; [reflexivity|]. vm_compute. tauto. Qed.

(** ** modules/executor.py *)

Lemma filter_KeptLines (marker : str) (lines : list str) :
  KeptLines marker lines
    (List.filter (fun line => negb (contains line marker)) lines).
Proof.
  induction lines as [|line lines IH]; simpl.
  - constructor.
  - destruct (contains line marker) eqn:E; simpl.
    + apply kept_drop; [|exact IH]. now apply contains_spec.
    + apply kept_keep; [|exact IH].
      intros H. apply contains_spec in H. congruence.
Qed.

(** [KeptLines] has one solution only. *)
Lemma KeptLines_unique (marker : str) (lines kept kept' : list str) :
  KeptLines marker lines kept -> KeptLines marker lines kept' -> kept = kept'.
Proof.
  intros H. revert kept'.
  induction H as [| line lines kept Hm _ IH | line lines kept Hm _ IH];
    intros kept' H'; inversion H'; subst; try contradiction.
  - reflexivity.
  - now apply IH.
  - f_equal. now apply IH.
Qed.

(** The kept lines are the lines without the marker, in their order. *)
Lemma KeptLines_sublist (marker : str) (lines kept : list str) :
  KeptLines marker lines kept ->
  sublist kept lines
  /\ forall line, In line kept <-> In line lines /\ ~ Substring marker line.
Proof.
  induction 1 as [| line lines kept Hm _ [IHs IHi] | line lines kept Hm _ [IHs IHi]].
  - split; [constructor|]. simpl. tauto.
  - split; [now constructor|].
    intros l. rewrite IHi. simpl. split; [tauto|].
    intros [[<- | Hin] Hn]; [contradiction | tauto].
  - split; [now constructor|].
    intros l. simpl. rewrite IHi. split.
    + intros [<- | [Hin Hn]]; tauto.
    + tauto.
Qed.

(** What [strip] removes is whitespace, and what it leaves neither starts
    nor ends with whitespace. *)
Lemma lstrip_head (text : str) (c : N) (rest : str) :
  lstrip text = c :: rest -> isspace c = false.
Proof.
  induction text as [|d text IH]; simpl; [discriminate|].
  destruct (isspace d) eqn:E; [exact IH|].
  intros H. injection H as <- _. exact E.
Qed.

Lemma rstrip_split (text : str) :
  exists ws, text = rstrip text ++ ws /\ forallb isspace ws = true.
Proof.
  destruct (lstrip_split (rev text)) as [ws [H Hws]].
  exists (rev ws). split.
  - unfold rstrip. rewrite <- rev_app_distr, <- H. now rewrite rev_involutive.
  - rewrite forallb_forall in *. intros c Hc. apply Hws. now apply in_rev.
Qed.

Lemma strip_spec (text : str) :
  (exists ws1 ws2,
      text = ws1 ++ strip text ++ ws2
      /\ forallb isspace ws1 = true /\ forallb isspace ws2 = true)
  /\ (forall c rest, strip text = c :: rest -> isspace c = false)
  /\ (forall front c, strip text = front ++ [c] -> isspace c = false).
Proof.
  destruct (lstrip_split text) as [ws1 [H1 Hws1]].
  destruct (rstrip_split (lstrip text)) as [ws2 [H2 Hws2]].
  split; [|split].
  - exists ws1, ws2. unfold strip. now rewrite <- H2, <- H1.
  - intros c rest Hc. unfold strip in Hc. rewrite Hc in H2.
    apply (lstrip_head text c (rest ++ ws2)). exact H2.
  - intros front c Hc. unfold strip, rstrip in Hc.
    apply (f_equal (@rev N)) in Hc. rewrite rev_involutive, rev_app_distr in Hc.
    simpl in Hc. now apply lstrip_head in Hc.
Qed.


(** Case analysis on the answer of the environment to the next call. *)
Tactic Notation "answer" constr(h) ident(x) :=
  match goal with
  | |- context [h ?c ?w] =>
      let e := fresh "e" in
      let w' := fresh "w" in
      destruct (h c w) as [[x | e] w']
  end;
  cbn [run bind try_except fst snd omap list_omap].

(** In every environment [run_etl_script] returns: either the child
    process ran and its filtered output is returned, or a step before it
    raised and the text of that exception is returned as stderr. *)
Lemma run_etl_script_cases {W : Type} (h : env W) (w : W) (code : str) :
  (exists out err,
      omap subprocess_output (log_of h (run_etl_script code) w) = [(out, err)]
      /\ result_of h (run_etl_script code) w = Returns (filtered_output out err))
  \/ (exists e,
        omap subprocess_output (log_of h (run_etl_script code) w) = []
        /\ result_of h (run_etl_script code) w
           = Returns ([], 10060 :: lit " Error running script: " ++ exn_str e)).
Proof.
  unfold run_etl_script, finally, call, result_of, log_of.
  cbn [run bind try_except fst snd].
  answer h f; [|right; now eexists].
  answer h written; (answer h closed; [|right; now eexists]); try (right; now eexists).
  answer h result; [|right; now eexists].
  destruct result as [out err]. cbn [run bind try_except fst snd].
  left. exists out, err.
  answer h unlinked; split; reflexivity.
Qed.

(** C9.  For every output [(out, err)] captured from the child process,
    [run_etl_script] returns [out] trimmed and, as stderr, the lines of
    [err] without those that contain [numpy/_core/getlimits.py], the other
    lines unchanged and in their order, joined by newlines and trimmed. *)
Theorem run_etl_script_filters_stderr :
  forall (W : Type) (h : env W) (w : W) (code out err : str),
    In (out, err) (omap subprocess_output (log_of h (run_etl_script code) w)) ->
    exists kept,
      KeptLines (lit "numpy/_core/getlimits.py") (splitlines err) kept
      /\ sublist kept (splitlines err)
      /\ (forall line,
             In line kept <->
             In line (splitlines err) /\ ~ Substring (lit "numpy/_core/getlimits.py") line)
      /\ result_of h (run_etl_script code) w
         = Returns (strip out, strip (join nl kept)).
Proof.
  intros W h w code out err Hin.
  destruct (run_etl_script_cases h w code) as [[out' [err' [Hlog Hres]]] | [e [Hlog _]]];
    rewrite Hlog in Hin; [|destruct Hin].
  destruct Hin as [Heq | []]. injection Heq as -> ->.
  pose proof (filter_KeptLines (lit "numpy/_core/getlimits.py") (splitlines err)) as Hk.
  destruct (KeptLines_sublist _ _ _ Hk) as [Hsub Hmem].
  eexists. split; [exact Hk|]. split; [exact Hsub|]. split; [exact Hmem|]. exact Hres.
Qed.

Lemma run_etl_script_filters_stderr_witness :
  exists kept,
    KeptLines (lit "numpy/_core/getlimits.py") (splitlines warning_and_hello) kept
    /\ sublist kept (splitlines warning_and_hello)
    /\ (forall line,
           In line kept <->
           In line (splitlines warning_and_hello)
           /\ ~ Substring (lit "numpy/_core/getlimits.py") line)
    /\ result_of (child_env (lit "done" ++ nl) warning_and_hello)
                 (run_etl_script (lit "print('done')")) tt
       = Returns (strip (lit "done" ++ nl), strip (join nl kept)).
Proof.
  apply (run_etl_script_filters_stderr unit
           (child_env (lit "done" ++ nl) warning_and_hello) tt (lit "print('done')")).
  left. reflexivity.
Defined.

Example run_etl_script_warning_and_hello :
  result_of (child_env (lit "done" ++ nl) warning_and_hello)
            (run_etl_script (lit "print('done')")) tt
  = Returns (lit "done", lit "hello").
Proof. reflexivity. Qed.

(** ** main.py: POST /execute-code *)


Lemma lower_from_ascii (unicode_lower : str -> N -> str -> str) (before text : str) :
  (forall c, In c text -> c < 128) ->
  lower_from unicode_lower before text = map ascii_lower text.
Proof.
  revert before. induction text as [|c text IH]; intros before Hascii; simpl.
  - reflexivity.
  - rewrite IH by (intros d Hd; apply Hascii; now right).
    unfold lower_char, ascii_lower.
    destruct ((65 <=? c) && (c <=? 90)); [reflexivity|].
    assert (Hc : c < 128) by (apply Hascii; now left).
    apply N.ltb_lt in Hc. now rewrite Hc.
Qed.

Lemma ascii_lower_letter (l c : N) :
  97 <= l <= 122 -> (ascii_lower c = l <-> same_letter l c).
Proof.
  intros Hl. unfold ascii_lower, same_letter.
  destruct ((65 <=? c) && (c <=? 90)) eqn:E.
  - apply andb_true_iff in E as [E1 E2]. apply N.leb_le in E1, E2. lia.
  - apply andb_false_iff in E as [E | E]; apply N.leb_gt in E; lia.
Qed.

Lemma lowercase_word_found (word found : str) :
  Forall (fun l => 97 <= l <= 122) word ->
  (map ascii_lower found = word <-> Forall2 same_letter word found).
Proof.
  revert found. induction word as [|l word IH]; intros found Hword.
  - split.
    + intros H. destruct found; [constructor | discriminate].
    + intros H. inversion H. reflexivity.
  - inversion Hword as [|? ? Hl Hrest]; subst. split.
    + intros H. destruct found as [|c found]; [discriminate|].
      injection H as Hc Hf. constructor.
      * now apply ascii_lower_letter.
      * now apply IH.
    + intros H. inversion H as [|? c ? found' Hc Hf]; subst. simpl. f_equal.
      * now apply ascii_lower_letter.
      * now apply IH.
Qed.

Lemma lowered_substring (word text : str) :
  Forall (fun l => 97 <= l <= 122) word ->
  (Substring word (map ascii_lower text) <-> SubstringIgnoringCase word text).
Proof.
  intros Hword. split.
  - intros [front [back H]].
    apply map_eq_app in H as [front' [rest [-> [Hfront H]]]].
    apply map_eq_app in H as [found [back' [-> [Hfound Hback]]]].
    exists front', found, back'. split; [reflexivity|].
    now apply lowercase_word_found.
  - intros [front [found [back [-> H]]]].
    exists (map ascii_lower front), (map ascii_lower back).
    rewrite !map_app. do 2 f_equal. now apply lowercase_word_found.
Qed.

Lemma error_is_lowercase : Forall (fun l => 97 <= l <= 122) (lit "error").
Proof. repeat constructor; vm_compute; discriminate. Qed.

Lemma execute_code_after_script (unicode_lower : str -> N -> str -> str)
    {W : Type} (h : env W) (w : W) (code out err : str) :
  result_of h (run_etl_script code) w = Returns (out, err) ->
  result_of h (execute_code unicode_lower code) w
  = Returns (Body {| exec_success :=
                       negb (negb (str_eqb err []))
                       || negb (contains (lower unicode_lower err) (lit "error"));
                     stdout := out;
                     stderr := err |}).
Proof.
  unfold execute_code, result_of. rewrite run_try_except_value, run_bind.
  destruct (run h (run_etl_script code) w) as [[o w1] log1].
  cbn [fst]. intros ->. reflexivity.
Qed.

Lemma run_etl_script_returns {W : Type} (h : env W) (w : W) (code : str) :
  exists out err, result_of h (run_etl_script code) w = Returns (out, err).
Proof.
  destruct (run_etl_script_cases h w code) as [[out [err [_ H]]] | [e [_ H]]];
    rewrite H; now eexists _, _.
Qed.

Lemma success_flag_spec (unicode_lower : str -> N -> str -> str) (err : str) :
  negb (negb (str_eqb err [])) || negb (contains (lower unicode_lower err) (lit "error"))
  = true
  <-> err = [] \/ ~ Substring (lit "error") (lower unicode_lower err).
Proof.
  rewrite orb_true_iff, negb_involutive, str_eqb_eq, negb_true_iff.
  unfold Substring. rewrite <- contains_spec.
  destruct (contains (lower unicode_lower err) (lit "error")); intuition congruence.
Qed.

(** C1.  POST /execute-code always answers with a body; its [success]
    flag is true exactly when the stderr the executor returned is empty or
    its lowercase form does not contain [error] -- on ASCII text: when no
    five characters in a row spell [error] in any mix of cases.  The flag
    depends on stderr alone, whatever stdout holds. *)
Theorem execute_code_success_flag :
  forall (unicode_lower : str -> N -> str -> str)
         (W : Type) (h : env W) (w : W) (code : str),
  exists out err flag,
    result_of h (run_etl_script code) w = Returns (out, err)
    /\ result_of h (execute_code unicode_lower code) w
       = Returns (Body {| exec_success := flag; stdout := out; stderr := err |})
    /\ (flag = true <-> err = [] \/ ~ Substring (lit "error") (lower unicode_lower err))
    /\ ((forall c, In c err -> c < 128) ->
        (flag = true <-> err = [] \/ ~ SubstringIgnoringCase (lit "error") err)).
Proof.
  intros unicode_lower W h w code.
  destruct (run_etl_script_returns h w code) as [out [err Hres]].
  exists out, err. eexists. split; [exact Hres|].
  split; [now apply execute_code_after_script|].
  split; [apply success_flag_spec|].
  intros Hascii. rewrite success_flag_spec.
  unfold lower. rewrite (lower_from_ascii _ _ _ Hascii).
  now rewrite (lowered_substring _ _ error_is_lowercase).
Qed.

Lemma execute_code_success_flag_witness :
  exists flag,
    result_of (child_env (lit "Error: printed to stdout") (lit "hello"))
              (execute_code no_unicode_lower (lit "print('x')")) tt
    = Returns (Body {| exec_success := flag;
                       stdout := lit "Error: printed to stdout";
                       stderr := lit "hello" |})
    /\ (flag = true <-> lit "hello" = [] \/ ~ SubstringIgnoringCase (lit "error") (lit "hello")).
Proof.
  destruct (execute_code_success_flag no_unicode_lower unit
              (child_env (lit "Error: printed to stdout") (lit "hello")) tt
              (lit "print('x')"))
    as [out [err [flag [Hscript [Hresp [_ Hascii]]]]]].
  injection Hscript as <- <-.
  exists flag. split; [exact Hresp|].
  apply Hascii. intros c Hc.
  repeat (destruct Hc as [<- | Hc]; [reflexivity|]). destruct Hc.
Defined.

Example stdout_error_is_ignored :
  result_of (child_env (lit "Error: printed to stdout") [])
            (execute_code no_unicode_lower (lit "print('x')")) tt
  = Returns (Body {| exec_success := true;
                     stdout := lit "Error: printed to stdout";
                     stderr := [] |}).
Proof. reflexivity. Qed.

Example stderr_error_any_case :
  result_of (child_env (lit "ok") (lit "ValueError: bad value"))
            (execute_code no_unicode_lower (lit "print('x')")) tt
  = Returns (Body {| exec_success := false;
                     stdout := lit "ok";
                     stderr := lit "ValueError: bad value" |}).
Proof. reflexivity. Qed.

(** ** modules/generator.py: the choice of the LLM client *)

Lemma get_llm_no_provider (g : generator_globals) :
  LANGCHAIN_AVAILABLE g = false ->
  get_llm g
  = Raise (Exc "ImportError"
             (lit "Neither langchain_google_genai nor langchain_openai is available. Please install one of them.")).
Proof. intros H. unfold get_llm. now rewrite H. Qed.

(** Whatever the import block selected, [get_llm] reads [GOOGLE_API_KEY]:
    the test on [locals()] never holds. *)
Lemma get_llm_reads_google_key (g : generator_globals) :
  LANGCHAIN_AVAILABLE g = true ->
  first_call (get_llm g) = Some (Os_getenv (lit "GOOGLE_API_KEY")).
Proof. intros H. unfold get_llm. now rewrite H. Qed.

Lemma get_llm_missing_google_key (g : generator_globals) {W : Type} (h : env W) (w : W) :
  LANGCHAIN_AVAILABLE g = true ->
  fst (h (Os_getenv (lit "GOOGLE_API_KEY")) w) = Returns None ->
  result_of h (get_llm g) w
  = Raises (Exc "ValueError"
              (lit "GOOGLE_API_KEY environment variable is required but not set")).
Proof.
  intros Hg Hkey. unfold get_llm, result_of. rewrite Hg.
  cbn [negb existsb get_llm_locals bind call run].
  destruct (h (Os_getenv (lit "GOOGLE_API_KEY")) w) as [r w1].
  simpl in Hkey. subst r. reflexivity.
Qed.

(** C5 (the code at the failing input).  Where only [langchain_openai] is
    installed the import block selects OpenAI; with [OPENAI_API_KEY] not
    set and [GOOGLE_API_KEY] set, [get_llm] does not raise the
    configuration error about [OPENAI_API_KEY]: it reads [GOOGLE_API_KEY]
    only and raises a [NameError] on [ChatGoogleGenerativeAI], and so does
    [generate_etl_code]. *)
Theorem openai_selection_not_honoured :
  USE_OPENAI openai_only_globals = Some true
  /\ fst (only_google_key_env (Os_getenv (lit "OPENAI_API_KEY")) tt) = Returns None
  /\ result_of only_google_key_env (get_llm openai_only_globals) tt
     = Raises (name_error "ChatGoogleGenerativeAI")
  /\ map ev_call (log_of only_google_key_env (get_llm openai_only_globals) tt)
     = [Os_getenv (lit "GOOGLE_API_KEY")]
  /\ forall source_type source_creds target_type target_creds transformations
            src_preview tgt_preview,
       result_of only_google_key_env
         (generate_etl_code openai_only_globals source_type source_creds
            target_type target_creds transformations src_preview tgt_preview) tt
       = Raises (name_error "ChatGoogleGenerativeAI").
Proof.
  split; [reflexivity|]. split; [reflexivity|].
  split; [reflexivity|]. split; [reflexivity|].
  intros. unfold generate_etl_code, result_of. rewrite run_bind. reflexivity.
Qed.

(** ** Further properties: [strip_code_block] *)

Lemma all_space_nil : all_space [].
Proof. reflexivity. Qed.

(** What [strip_code_block] removes at the front: nothing, or the fence it
    found and the whitespace after it. *)
Lemma strip_front (text : str) :
  exists fence ws,
    text = fence ++ ws ++
           (if startswith text (lit "```python") then
              lstrip (drop (length (lit "```python")) text)
            else if startswith text (lit "```") then
              lstrip (drop (length (lit "```")) text)
            else text)
    /\ (fence = [] /\ ws = [] \/ is_fence fence /\ all_space ws).
Proof.
  destruct (startswith text (lit "```python")) eqn:Hp.
  - apply startswith_spec in Hp as [rest ->].
    rewrite drop_app_length.
    destruct (lstrip_split rest) as [ws [Hws Hspace]].
    exists (lit "```python"), ws. split; [now rewrite <- Hws|].
    right. split; [now left | exact Hspace].
  - destruct (startswith text (lit "```")) eqn:Hs.
    + apply startswith_spec in Hs as [rest ->].
      rewrite drop_app_length.
      destruct (lstrip_split rest) as [ws [Hws Hspace]].
      exists (lit "```"), ws. split; [now rewrite <- Hws|].
      right. split; [now right | exact Hspace].
    + exists [], []. split; [reflexivity | now left].
Qed.

(** What it removes at the back: nothing, or whitespace and the three
    backquotes. *)
Lemma strip_back (text : str) :
  exists ws tail,
    text = (if endswith text (lit "```") then rstrip (take (length text - 3) text)
            else text) ++ ws ++ tail
    /\ (ws = [] /\ tail = [] \/ all_space ws /\ tail = lit "```").
Proof.
  destruct (endswith text (lit "```")) eqn:He.
  - apply endswith_spec in He as [front ->].
    rewrite length_app. change (length (lit "```")) with 3%nat.
    replace (length front + 3 - 3)%nat with (length front) by lia.
    rewrite take_app_length.
    destruct (rstrip_split front) as [ws [Hws Hspace]].
    exists ws, (lit "```"). split.
    + rewrite app_assoc. now rewrite <- Hws.
    + right. split; [exact Hspace | reflexivity].
  - exists [], []. split; [now rewrite app_nil_r | now left].
Qed.

(** X1.  [strip_code_block] only removes: its input is the result with, in
    front, nothing or one fence followed by whitespace, and, behind,
    nothing or whitespace followed by three backquotes.  What stands between
    is returned as it is, and the result is never longer than the input. *)
Theorem strip_code_block_only_removes :
  forall text : str,
  exists fence ws1 ws2 tail,
    text = fence ++ ws1 ++ strip_code_block text ++ ws2 ++ tail
    /\ (fence = [] /\ ws1 = [] \/ is_fence fence /\ all_space ws1)
    /\ (ws2 = [] /\ tail = [] \/ all_space ws2 /\ tail = lit "```")
    /\ (length (strip_code_block text) <= length text)%nat.
Proof.
  intros text. unfold strip_code_block.
  destruct (strip_front text) as [fence [ws1 [Hfront Hf]]].
  set (inner := if startswith text (lit "```python") then _ else _) in *.
  destruct (strip_back inner) as [ws2 [tail [Hback Hb]]].
  set (result := if endswith inner (lit "```") then _ else _) in *.
  exists fence, ws1, ws2, tail.
  assert (Htext : text = fence ++ ws1 ++ result ++ ws2 ++ tail)
    by (rewrite Hfront at 1; now rewrite Hback at 1).
  split; [exact Htext|]. split; [exact Hf|]. split; [exact Hb|].
  rewrite Htext at 1. rewrite !length_app. lia.
Qed.

(** ** Further properties: the executor *)

(** *** Substrings *)

Lemma Substring_refl (text : str) : Substring text text.
Proof. exists [], []. now rewrite app_nil_r. Qed.

Lemma Substring_trans (a b c : str) : Substring a b -> Substring b c -> Substring a c.
Proof.
  intros [f1 [b1 ->]] [f2 [b2 ->]]. exists (f2 ++ f1), (b1 ++ b2).
  now rewrite <- !app_assoc.
Qed.

Lemma Substring_here (sub rest : str) : Substring sub (sub ++ rest).
Proof. now exists [], rest. Qed.

Lemma Substring_right (sub front text : str) :
  Substring sub text -> Substring sub (front ++ text).
Proof.
  intros [f [b ->]]. exists (front ++ f), b. now rewrite <- app_assoc.
Qed.

Lemma Substring_left (sub text back : str) :
  Substring sub text -> Substring sub (text ++ back).
Proof.
  intros [f [b ->]]. exists f, (b ++ back). now rewrite <- !app_assoc.
Qed.

Lemma Substring_strip (sub text : str) : Substring sub (strip text) -> Substring sub text.
Proof.
  intros H. destruct (strip_spec text) as [[ws1 [ws2 [Ht _]]] _].
  rewrite Ht. now apply Substring_right, Substring_left.
Qed.

(** A text without line feed that occurs in two parts joined by a line
    feed occurs in one of them. *)
Lemma Substring_across (sub a b : str) :
  ~ In 10 sub -> Substring sub (a ++ 10 :: b) -> Substring sub a \/ Substring sub b.
Proof.
  intros Hn [front [back H]].
  apply app_eq_app in H as [l [[Ha Hl] | [Hf Hl]]].
  - symmetry in Hl. apply app_eq_app in Hl as [l' [[Hl Hb] | [Hs Hb]]].
    + left. subst a l. exists front, l'. reflexivity.
    + destruct l' as [|c l'].
      * left. subst a. rewrite app_nil_r in Hs. subst l. exists front, [].
        now rewrite app_nil_r.
      * injection Hb as <- _. exfalso. apply Hn. subst sub.
        apply in_or_app. right. now left.
  - destruct l as [|c l].
    + destruct sub as [|c sub]; [left; exists a, []; now rewrite app_nil_r|].
      injection Hl as <- _. exfalso. apply Hn. now left.
    + injection Hl as _ ->. right. now exists l, back.
Qed.

Lemma Substring_join (sub : str) (lines : list str) :
  ~ In 10 sub -> sub <> [] ->
  Substring sub (join nl lines) ->
  exists line, In line lines /\ Substring sub line.
Proof.
  intros Hn Hne. induction lines as [|p rest IH]; intros H.
  - destruct H as [front [back H]]. simpl in H.
    destruct front; [|discriminate H]. destruct sub; [contradiction | discriminate H].
  - destruct rest as [|q rest].
    + exists p. split; [now left | exact H].
    + change (join nl (p :: q :: rest)) with (p ++ 10 :: join nl (q :: rest)) in H.
      apply Substring_across in H as [H | H]; [| | exact Hn].
      * exists p. split; [now left | exact H].
      * destruct (IH H) as [line [Hin Hs]]. exists line. split; [now right | exact Hs].
Qed.

Lemma marker_has_no_line_feed : ~ In 10 marker.
Proof.
  unfold marker. intros H. vm_compute in H.
  repeat (destruct H as [H | H]; [discriminate H|]). exact H.
Qed.

(** *** Trimming *)

Lemma lstrip_all_space (ws : str) : all_space ws -> lstrip ws = [].
Proof.
  unfold all_space. induction ws as [|c ws IH]; simpl; [reflexivity|].
  intros H. apply andb_true_iff in H as [Hc Hws]. rewrite Hc. now apply IH.
Qed.

Lemma lstrip_all_space_app (ws text : str) : all_space ws -> lstrip (ws ++ text) = lstrip text.
Proof.
  unfold all_space. induction ws as [|c ws IH]; simpl; [reflexivity|].
  intros H. apply andb_true_iff in H as [Hc Hws]. rewrite Hc. now apply IH.
Qed.

Lemma lstrip_app_some_text (text rest : str) :
  forallb isspace text = false -> lstrip (text ++ rest) = lstrip text ++ rest.
Proof.
  induction text as [|c text IH]; simpl; [discriminate|].
  destruct (isspace c); simpl; [exact IH | reflexivity].
Qed.

Lemma all_space_rev (ws : str) : all_space ws -> all_space (rev ws).
Proof.
  unfold all_space. rewrite !forallb_forall. intros H c Hc. apply H. now apply in_rev.
Qed.

Lemma rstrip_app_space (text ws : str) : all_space ws -> rstrip (text ++ ws) = rstrip text.
Proof.
  intros H. unfold rstrip. rewrite rev_app_distr.
  now rewrite lstrip_all_space_app by now apply all_space_rev.
Qed.

Lemma strip_app_space (text ws : str) : all_space ws -> strip (text ++ ws) = strip text.
Proof.
  intros H. unfold strip.
  destruct (forallb isspace text) eqn:E.
  - rewrite (lstrip_all_space_app text ws E), (lstrip_all_space text E).
    now rewrite (lstrip_all_space ws H).
  - rewrite (lstrip_app_some_text text ws E). now apply rstrip_app_space.
Qed.

(** *** Lines *)

Lemma splitlines_from_line_feed (line rest : str) :
  splitlines_from line (10 :: rest) = line :: splitlines_from [] rest.
Proof. destruct rest; reflexivity. Qed.

Lemma splitlines_from_other (line : str) (c : N) (rest : str) :
  is_linebreak c = false ->
  splitlines_from line (c :: rest) = splitlines_from (line ++ [c]) rest.
Proof. intros H. simpl. now rewrite H. Qed.

Lemma splitlines_from_nil (line text : str) :
  splitlines_from line text = [] -> line = [] /\ text = [].
Proof.
  revert line. induction text as [|c rest IH]; intros line; simpl.
  - destruct line; [intros _; now split | discriminate].
  - destruct (is_linebreak c); [discriminate|].
    intros H. apply IH in H as [H _]. now destruct line.
Qed.

Lemma only_line_feeds_tail (c : N) (rest : str) :
  only_line_feeds (c :: rest) -> only_line_feeds rest.
Proof. intros H d Hd. apply H. now right. Qed.

(** Joining the lines of a text whose only boundary is the line feed gives
    the text back, up to one final line feed. *)
Lemma join_splitlines_from (line text : str) :
  only_line_feeds text ->
  exists trailing,
    (trailing = [] \/ trailing = nl)
    /\ line ++ text = join nl (splitlines_from line text) ++ trailing.
Proof.
  revert line. induction text as [|c rest IH]; intros line Hlf.
  - exists []. split; [now left|]. simpl. now destruct line.
  - pose proof (only_line_feeds_tail _ _ Hlf) as Hrest.
    destruct (is_linebreak c) eqn:E.
    + assert (c = 10) by (apply Hlf; [now left | exact E]). subst c.
      rewrite splitlines_from_line_feed.
      destruct (IH [] Hrest) as [trailing [Ht Heq]]. simpl in Heq.
      destruct (splitlines_from [] rest) as [|q more] eqn:El.
      * apply splitlines_from_nil in El as [_ ->].
        exists nl. split; [now right | reflexivity].
      * exists trailing. split; [exact Ht|].
        change (join nl (line :: q :: more)) with (line ++ 10 :: join nl (q :: more)).
        rewrite Heq. now rewrite <- app_assoc.
    + rewrite (splitlines_from_other _ _ _ E).
      destruct (IH (line ++ [c]) Hrest) as [trailing [Ht Heq]].
      exists trailing. split; [exact Ht|]. rewrite <- Heq. now rewrite <- app_assoc.
Qed.

Lemma splitlines_from_infix (line text l : str) :
  only_line_feeds text ->
  In l (splitlines_from line text) -> Substring l (line ++ text).
Proof.
  revert line. induction text as [|c rest IH]; intros line Hlf.
  - simpl. destruct line; [intros [] |]. intros [<- | []].
    rewrite app_nil_r. apply Substring_refl.
  - pose proof (only_line_feeds_tail _ _ Hlf) as Hrest.
    destruct (is_linebreak c) eqn:E.
    + assert (c = 10) by (apply Hlf; [now left | exact E]). subst c.
      rewrite splitlines_from_line_feed. intros [<- | Hin].
      * apply Substring_here.
      * pose proof (IH [] Hrest Hin) as Hl. simpl in Hl.
        apply (Substring_right l (line ++ [10]) rest) in Hl.
        now rewrite <- app_assoc in Hl.
    + rewrite (splitlines_from_other _ _ _ E). intros Hin.
      apply IH in Hin; [|exact Hrest]. now rewrite <- app_assoc in Hin.
Qed.

Lemma nl_all_space : all_space nl.
Proof. reflexivity. Qed.

(** A stderr without the marker and with line feeds only comes back
    trimmed and otherwise unchanged. *)
Lemma filtered_output_clean (out err : str) :
  ~ Substring marker err -> only_line_feeds err ->
  filtered_output out err = (strip out, strip err).
Proof.
  intros Hm Hlf. unfold filtered_output. f_equal.
  rewrite forallb_filter_id.
  - destruct (join_splitlines_from [] err Hlf) as [trailing [Ht Heq]].
    simpl in Heq. fold (splitlines err) in Heq. rewrite Heq at 2.
    destruct Ht as [-> | ->].
    + now rewrite app_nil_r.
    + now rewrite (strip_app_space _ nl nl_all_space).
  - apply forallb_forall. intros line Hin. apply negb_true_iff.
    destruct (contains line (lit "numpy/_core/getlimits.py")) eqn:E; [|reflexivity].
    exfalso. apply Hm. apply contains_spec in E.
    apply (Substring_trans _ line); [exact E|].
    now apply (splitlines_from_infix [] err line Hlf).
Qed.

(** *** The runs of [run_etl_script] *)

(** Either every step up to the child process returned, and the calls are
    the five of the protocol; or a step raised before the child's output
    was there, and nothing is unlinked. *)
Lemma run_etl_script_trace {W : Type} (h : env W) (w : W) (code : str) :
  (exists f name out err,
      map ev_call (log_of h (run_etl_script code) w)
      = [ NamedTemporaryFile (lit "w") (lit ".py") false;
          File_write f code;
          File_close f;
          Subprocess_run [lit "python"; name];
          Os_unlink name ]
      /\ omap subprocess_output (log_of h (run_etl_script code) w) = [(out, err)]
      /\ result_of h (run_etl_script code) w = Returns (filtered_output out err))
  \/ (exists e,
        raised (log_of h (run_etl_script code) w) e
        /\ omap subprocess_output (log_of h (run_etl_script code) w) = []
        /\ existsb is_unlink (map ev_call (log_of h (run_etl_script code) w)) = false
        /\ result_of h (run_etl_script code) w = Returns ([], spawn_error e)).
Proof.
  unfold run_etl_script, finally, call, result_of, log_of, raised.
  cbn [run bind try_except fst snd].
  answer h f;
    [|right; eexists; cbn; split; [left; reflexivity | repeat split]].
  answer h written;
    (answer h closed;
     [|right; eexists; cbn; split; [do 2 right; left; reflexivity | repeat split]]);
    try (right; eexists; cbn; split; [right; left; reflexivity | repeat split]).
  answer h result;
    [|right; eexists; cbn; split; [do 3 right; left; reflexivity | repeat split]].
  destruct result as [out err]. cbn [run bind try_except fst snd].
  left. exists (fst f), (snd f), out, err.
  answer h unlinked; repeat split.
Qed.

(** X2.  [run_etl_script] never raises.  When a step failed before the
    child's output was there (creating, writing or closing the file, or
    starting the process), it returns an empty stdout and, as stderr, the
    cross mark and [ Error running script: ] followed by the text of an
    exception one of the calls raised; the temporary file is then not
    unlinked. *)
Theorem run_etl_script_spawn_failure :
  forall (W : Type) (h : env W) (w : W) (code : str),
  exists out err,
    result_of h (run_etl_script code) w = Returns (out, err)
    /\ (omap subprocess_output (log_of h (run_etl_script code) w) = [] ->
        exists e,
          raised (log_of h (run_etl_script code) w) e
          /\ out = [] /\ err = spawn_error e
          /\ existsb is_unlink (map ev_call (log_of h (run_etl_script code) w)) = false).
Proof.
  intros W h w code.
  destruct (run_etl_script_trace h w code)
    as [[f [name [out [err [_ [Hout Hres]]]]]] | [e [He [_ [Hun Hres]]]]].
  - eexists _, _. split; [exact Hres|]. intros Hnone. rewrite Hout in Hnone. discriminate.
  - exists [], (spawn_error e). split; [exact Hres|]. intros _. exists e. auto.
Qed.

Lemma run_etl_script_spawn_failure_witness :
  result_of refusing_env (run_etl_script (lit "print(1)")) tt
  = Returns ([], spawn_error refused).
Proof.
  destruct (run_etl_script_spawn_failure unit refusing_env tt (lit "print(1)"))
    as [out [err [Hres Hfail]]].
  destruct (Hfail eq_refl) as [e [He [-> [-> _]]]].
  destruct He as [He | []]. injection He as <-. exact Hres.
Defined.

(** When the child process ran, the log is the five calls of the protocol
    with what each of them returned. *)
Lemma run_etl_script_log {W : Type} (h : env W) (w : W) (code : str) :
  (exists f name out err unlinked,
      log_of h (run_etl_script code) w
      = [ Event (NamedTemporaryFile (lit "w") (lit ".py") false) (Returns (f, name));
          Event (File_write f code) (Returns tt);
          Event (File_close f) (Returns tt);
          Event (Subprocess_run [lit "python"; name]) (Returns (out, err));
          Event (Os_unlink name) unlinked ])
  \/ omap subprocess_output (log_of h (run_etl_script code) w) = [].
Proof.
  unfold run_etl_script, finally, call, result_of, log_of.
  cbn [run bind try_except fst snd].
  answer h f; [|now right].
  answer h written; (answer h closed; [|now right]); try now right.
  answer h result; [|now right].
  destruct result as [out err]. cbn [run bind try_except fst snd].
  left. destruct f as [f name]. destruct written, closed. cbn [fst snd].
  exists f, name, out, err.
  answer h unlinked; eexists; reflexivity.
Qed.

(** X3.  When the child process ran, [run_etl_script] has made exactly
    five calls: it created a temporary file in mode [w] with suffix [.py]
    and [delete=False], which gave a file object and its name; it wrote
    the code unchanged to that file object and closed it, both of which
    returned; it ran [python] on that name, which gave the captured
    output; and it unlinked that same name. *)
Theorem run_etl_script_protocol :
  forall (W : Type) (h : env W) (w : W) (code out err : str),
    In (out, err) (omap subprocess_output (log_of h (run_etl_script code) w)) ->
    exists f name unlinked,
      log_of h (run_etl_script code) w
      = [ Event (NamedTemporaryFile (lit "w") (lit ".py") false) (Returns (f, name));
          Event (File_write f code) (Returns tt);
          Event (File_close f) (Returns tt);
          Event (Subprocess_run [lit "python"; name]) (Returns (out, err));
          Event (Os_unlink name) unlinked ].
Proof.
  intros W h w code out err Hin.
  destruct (run_etl_script_log h w code)
    as [[f [name [out' [err' [unlinked Hlog]]]]] | Hnone].
  - rewrite Hlog in Hin. destruct Hin as [Heq | []].
    injection Heq as <- <-. now exists f, name, unlinked.
  - rewrite Hnone in Hin. destruct Hin.
Qed.

Lemma run_etl_script_protocol_witness :
  exists f name unlinked,
    log_of (child_env (lit "done") []) (run_etl_script (lit "print('done')")) tt
    = [ Event (NamedTemporaryFile (lit "w") (lit ".py") false) (Returns (f, name));
        Event (File_write f (lit "print('done')")) (Returns tt);
        Event (File_close f) (Returns tt);
        Event (Subprocess_run [lit "python"; name]) (Returns (lit "done", []));
        Event (Os_unlink name) unlinked ].
Proof.
  apply (run_etl_script_protocol unit (child_env (lit "done") []) tt
           (lit "print('done')") (lit "done") []).
  left. reflexivity.
Defined.

(** X4.  When the child process ran, the stderr [run_etl_script] returns
    does not contain [numpy/_core/getlimits.py] anywhere. *)
Theorem run_etl_script_stderr_without_marker :
  forall (W : Type) (h : env W) (w : W) (code out err : str),
    In (out, err) (omap subprocess_output (log_of h (run_etl_script code) w)) ->
    exists out' err',
      result_of h (run_etl_script code) w = Returns (out', err')
      /\ ~ Substring marker err'.
Proof.
  intros W h w code out err Hin.
  destruct (run_etl_script_trace h w code)
    as [[f [name [out' [err' [_ [Hout Hres]]]]]] | [e [_ [Hnone _]]]];
    [|rewrite Hnone in Hin; destruct Hin].
  eexists _, _. split; [exact Hres|].
  intros H. apply Substring_strip in H.
  apply Substring_join in H as [line [Hline Hsub]].
  - apply filter_In in Hline as [_ Hkeep]. apply negb_true_iff in Hkeep.
    apply contains_spec in Hsub. unfold marker in Hsub. congruence.
  - apply marker_has_no_line_feed.
  - discriminate.
Qed.

Lemma run_etl_script_stderr_without_marker_witness :
  exists out' err',
    result_of (child_env (lit "done") warning_and_hello)
              (run_etl_script (lit "print('done')")) tt
    = Returns (out', err')
    /\ ~ Substring marker err'.
Proof.
  apply (run_etl_script_stderr_without_marker unit
           (child_env (lit "done") warning_and_hello) tt (lit "print('done')")
           (lit "done") warning_and_hello).
  left. reflexivity.
Defined.

(** X5.  A stderr of the child process that does not contain the marker
    and has no line boundary other than the line feed is returned trimmed
    and otherwise unchanged (and stdout trimmed). *)
Theorem run_etl_script_clean_stderr :
  forall (W : Type) (h : env W) (w : W) (code out err : str),
    In (out, err) (omap subprocess_output (log_of h (run_etl_script code) w)) ->
    ~ Substring marker err ->
    only_line_feeds err ->
    result_of h (run_etl_script code) w = Returns (strip out, strip err).
Proof.
  intros W h w code out err Hin Hm Hlf.
  destruct (run_etl_script_trace h w code)
    as [[f [name [out' [err' [_ [Hout Hres]]]]]] | [e [_ [Hnone _]]]];
    [|rewrite Hnone in Hin; destruct Hin].
  rewrite Hout in Hin. destruct Hin as [Heq | []]. injection Heq as -> ->.
  rewrite Hres. f_equal. now apply filtered_output_clean.
Qed.

Lemma hello_world_has_no_marker : ~ Substring marker (lit "hello" ++ nl ++ lit "world" ++ nl).
Proof.
  intros H. apply contains_spec in H. vm_compute in H. discriminate H.
Defined.

Lemma hello_world_only_line_feeds : only_line_feeds (lit "hello" ++ nl ++ lit "world" ++ nl).
Proof.
  intros c Hin Hb.
  repeat (destruct Hin as [<- | Hin];
          [first [reflexivity | vm_compute in Hb; discriminate Hb]|]).
  destruct Hin.
Defined.

Lemma run_etl_script_clean_stderr_witness :
  result_of (child_env (lit "done" ++ nl) (lit "hello" ++ nl ++ lit "world" ++ nl))
            (run_etl_script (lit "print('done')")) tt
  = Returns (strip (lit "done" ++ nl), strip (lit "hello" ++ nl ++ lit "world" ++ nl)).
Proof.
  apply (run_etl_script_clean_stderr unit
           (child_env (lit "done" ++ nl) (lit "hello" ++ nl ++ lit "world" ++ nl)) tt).
  - left. reflexivity.
  - exact hello_world_has_no_marker.
  - exact hello_world_only_line_feeds.
Defined.

(** *** POST /execute-code when the script could not be run *)

Lemma lower_from_ascii_app (unicode_lower : str -> N -> str -> str)
    (before a b : str) :
  (forall c, In c a -> c < 128) ->
  lower_from unicode_lower before (a ++ b)
  = map ascii_lower a ++ lower_from unicode_lower (before ++ a) b.
Proof.
  revert before. induction a as [|c a IH]; intros before Hascii; simpl.
  - now rewrite app_nil_r.
  - rewrite IH by (intros d Hd; apply Hascii; now right).
    rewrite <- app_assoc. simpl. f_equal.
    unfold lower_char, ascii_lower.
    destruct ((65 <=? c) && (c <=? 90)); [reflexivity|].
    assert (Hc : c < 128) by (apply Hascii; now left).
    apply N.ltb_lt in Hc. now rewrite Hc.
Qed.

Lemma error_running_script_is_ascii :
  forall c, In c (lit " Error running script: ") -> c < 128.
Proof.
  intros c Hin. repeat (destruct Hin as [<- | Hin]; [reflexivity|]). destruct Hin.
Qed.

(** Whatever the tables say about the cross mark and about the text of the
    exception, the lowercase form of the message contains [error]. *)
Lemma spawn_error_lowered (unicode_lower : str -> N -> str -> str) (e : exn) :
  contains (lower unicode_lower (spawn_error e)) (lit "error") = true.
Proof.
  apply contains_spec. unfold lower, spawn_error. cbn [lower_from].
  rewrite (lower_from_ascii_app _ _ _ _ error_running_script_is_ascii).
  set (mark := lower_char unicode_lower _ _ _).
  set (text := lower_from unicode_lower _ (exn_str e)).
  exists (mark ++ [32]), (lit " running script: " ++ text).
  change (map ascii_lower (lit " Error running script: "))
    with ([32] ++ lit "error" ++ lit " running script: ").
  now rewrite <- !app_assoc.
Qed.

(** X6.  When the script could not be run (no output of a child process
    was captured), POST /execute-code answers with a body whose [success]
    is false, whose stdout is empty and whose stderr is the message built
    from the exception, whatever the text of that exception is. *)
Theorem execute_code_spawn_failure :
  forall (unicode_lower : str -> N -> str -> str)
         (W : Type) (h : env W) (w : W) (code : str),
    omap subprocess_output (log_of h (run_etl_script code) w) = [] ->
    exists e,
      raised (log_of h (run_etl_script code) w) e
      /\ result_of h (execute_code unicode_lower code) w
         = Returns (Body {| exec_success := false;
                            stdout := [];
                            stderr := spawn_error e |}).
Proof.
  intros unicode_lower W h w code Hnone.
  destruct (run_etl_script_trace h w code)
    as [[f [name [out [err [_ [Hout _]]]]]] | [e [He [_ [_ Hres]]]]].
  - rewrite Hout in Hnone. discriminate Hnone.
  - exists e. split; [exact He|].
    rewrite (execute_code_after_script unicode_lower h w code _ _ Hres).
    now rewrite spawn_error_lowered.
Qed.

Lemma execute_code_spawn_failure_witness :
  exists e,
    raised (log_of refusing_env (run_etl_script (lit "print(1)")) tt) e
    /\ result_of refusing_env (execute_code no_unicode_lower (lit "print(1)")) tt
       = Returns (Body {| exec_success := false;
                          stdout := [];
                          stderr := spawn_error e |}).
Proof.
  exact (execute_code_spawn_failure no_unicode_lower unit refusing_env tt
           (lit "print(1)") eq_refl).
Defined.

(** ** Further properties: the generator *)

Lemma Straight_get_llm (g : generator_globals) : Straight (fun _ _ => True) (get_llm g).
Proof.
  unfold get_llm. destruct (LANGCHAIN_AVAILABLE g); cbn [negb]; [|apply Straight_raise].
  cbn [get_llm_locals existsb bind].
  apply Straight_call_bind; intros api_key. cbv beta.
  destruct (key_missing api_key); [apply Straight_raise|].
  destruct (ChatGoogleGenerativeAI_bound g); [|apply Straight_raise].
  eapply Straight_weaken; [|exact (Straight_call_any (ChatGoogleGenerativeAI _ _))].
  trivial.
Qed.

Lemma Straight_preview_text (pv : pyval) :
  Straight (fun _ s => truthy pv = false -> s = lit "No preview available")
           (preview_text pv).
Proof.
  unfold preview_text. destruct (truthy pv).
  - eapply Straight_weaken; [|exact (Straight_call_any (Json_dumps pv))].
    intros log s _ H. discriminate H.
  - apply Straight_ret. reflexivity.
Qed.

Lemma Substring_four (a b c d rest : str) :
  Substring (a ++ b ++ c ++ d) (a ++ b ++ c ++ d ++ rest).
Proof. exists [], rest. now rewrite <- !app_assoc. Qed.

(** Find a part of the prompt. *)
Ltac in_prompt :=
  repeat first [ apply Substring_four | apply Substring_here | apply Substring_right ].

Lemma Straight_generate_etl_code (g : generator_globals)
    (source_type : str) (source_creds : gmap str pyval)
    (target_type : str) (target_creds : gmap str pyval)
    (instructions : str) (src_preview tgt_preview : pyval) :
  Straight (generated source_type source_creds target_type target_creds
              instructions src_preview tgt_preview)
    (generate_etl_code g source_type source_creds target_type target_creds
       instructions src_preview tgt_preview).
Proof.
  unfold generate_etl_code.
  eapply Straight_bind; [apply Straight_get_llm|]. intros llm log0 _. cbv beta.
  eapply Straight_bind; [apply Straight_preview_text|]. intros src_text log1 Hsrc. cbv beta.
  eapply Straight_bind; [apply Straight_preview_text|]. intros tgt_text log2 Htgt. cbv beta.
  apply Straight_call_bind; intros source_json. cbv beta.
  apply Straight_call_bind; intros target_json. cbv beta zeta.
  apply Straight_call_bind; intros content. cbv beta.
  apply Straight_ret.
  eexists _, content, source_json, target_json.
  split; [rewrite !map_app; do 3 (apply in_or_app; right); do 2 right; left; reflexivity|].
  split; [reflexivity|].
  split; [rewrite !map_app; do 3 (apply in_or_app; right); left; reflexivity|].
  split; [rewrite !map_app; do 3 (apply in_or_app; right); right; left; reflexivity|].
  repeat split; try (intros Hf; first [rewrite (Hsrc Hf) | rewrite (Htgt Hf)]); in_prompt.
Qed.

(** X7.  [generate_etl_code] has no handler: when a call raised (reading
    the key, building the client, [json.dumps], [llm.invoke]) that
    exception is raised to the caller, and when it returns no call raised
    and the result is [strip_code_block] of the text the LLM answered. *)
Theorem generate_etl_code_no_handler :
  forall (g : generator_globals)
         (source_type : str) (source_creds : gmap str pyval)
         (target_type : str) (target_creds : gmap str pyval)
         (instructions : str) (src_preview tgt_preview : pyval)
         (W : Type) (h : env W) (w : W),
    match result_of h (generate_etl_code g source_type source_creds target_type
                         target_creds instructions src_preview tgt_preview) w with
    | Returns result =>
        quiet (log_of h (generate_etl_code g source_type source_creds target_type
                           target_creds instructions src_preview tgt_preview) w)
        /\ exists prompt content,
            In (Some (prompt, content))
               (map llm_exchange
                    (log_of h (generate_etl_code g source_type source_creds target_type
                                 target_creds instructions src_preview tgt_preview) w))
            /\ result = strip_code_block content
    | Raises e =>
        forall e',
          raised (log_of h (generate_etl_code g source_type source_creds target_type
                              target_creds instructions src_preview tgt_preview) w) e' ->
          e' = e
    end.
Proof.
  intros. 
  pose proof (Straight_generate_etl_code g source_type source_creds target_type
                target_creds instructions src_preview tgt_preview W h w) as H.
  destruct (result_of h _ w) as [result | e]; [|exact H].
  destruct H as [[prompt [content [sj [tj [Hex [Hres _]]]]]] Hq].
  split; [exact Hq|]. now exists prompt, content.
Qed.

(** X8.  Whenever [generate_etl_code] returns, the prompt it sent to the
    LLM contains the transformation text unchanged, the two database type
    names, the two credential maps as [json.dumps(creds, indent=2)]
    rendered them, and the line [No preview available] in place of each
    preview that is empty (as after a failed validation). *)
Theorem generate_etl_code_prompt :
  forall (g : generator_globals)
         (source_type : str) (source_creds : gmap str pyval)
         (target_type : str) (target_creds : gmap str pyval)
         (instructions : str) (src_preview tgt_preview : pyval)
         (W : Type) (h : env W) (w : W) (result : str),
    result_of h (generate_etl_code g source_type source_creds target_type
                   target_creds instructions src_preview tgt_preview) w
    = Returns result ->
    generated source_type source_creds target_type target_creds instructions
      src_preview tgt_preview
      (log_of h (generate_etl_code g source_type source_creds target_type
                   target_creds instructions src_preview tgt_preview) w)
      result.
Proof.
  intros g source_type source_creds target_type target_creds instructions
         src_preview tgt_preview W h w result Hres.
  pose proof (Straight_generate_etl_code g source_type source_creds target_type
                target_creds instructions src_preview tgt_preview W h w) as H.
  rewrite Hres in H. exact (proj1 H).
Qed.

Example generate_etl_code_gemini :
  result_of gemini_env
    (generate_etl_code all_installed_globals (lit "SQLite") ∅ (lit "MongoDB") ∅
       (lit "uppercase the names") (VList []) (VList [])) tt
  = Returns (lit "print('loaded')").
Proof. reflexivity. Qed.

Lemma generate_etl_code_prompt_witness :
  generated (lit "SQLite") ∅ (lit "MongoDB") ∅ (lit "uppercase the names")
    (VList []) (VList [])
    (log_of gemini_env
       (generate_etl_code all_installed_globals (lit "SQLite") ∅ (lit "MongoDB") ∅
          (lit "uppercase the names") (VList []) (VList [])) tt)
    (lit "print('loaded')").
Proof.
  exact (generate_etl_code_prompt all_installed_globals (lit "SQLite") ∅ (lit "MongoDB") ∅
           (lit "uppercase the names") (VList []) (VList []) unit gemini_env tt
           (lit "print('loaded')") eq_refl).
Defined.

(** X9.  [get_llm] fails before any client is built: with no provider
    importable it raises [ImportError] without reading the environment,
    and otherwise, when [GOOGLE_API_KEY] is not set or is the empty string,
    it raises [ValueError] after that one read. *)
Theorem get_llm_configuration_errors :
  forall (g : generator_globals),
    (LANGCHAIN_AVAILABLE g = false ->
     get_llm g
     = Raise (Exc "ImportError"
                (lit "Neither langchain_google_genai nor langchain_openai is available. Please install one of them.")))
    /\ (LANGCHAIN_AVAILABLE g = true ->
        forall (W : Type) (h : env W) (w : W) (api_key : option str),
          fst (h (Os_getenv (lit "GOOGLE_API_KEY")) w) = Returns api_key ->
          api_key = None \/ api_key = Some [] ->
          result_of h (get_llm g) w
          = Raises (Exc "ValueError"
                      (lit "GOOGLE_API_KEY environment variable is required but not set"))
          /\ map ev_call (log_of h (get_llm g) w) = [Os_getenv (lit "GOOGLE_API_KEY")]).
Proof.
  intros g. split.
  - intros Hg. unfold get_llm. now rewrite Hg.
  - intros Hg W h w api_key Hkey Hmissing.
    unfold get_llm, result_of, log_of. rewrite Hg.
    cbn [negb existsb get_llm_locals bind call run].
    destruct (h (Os_getenv (lit "GOOGLE_API_KEY")) w) as [r w1].
    cbn [fst] in Hkey. subst r.
    destruct Hmissing as [-> | ->]; split; reflexivity.
Qed.

Lemma get_llm_configuration_errors_witness :
  get_llm (import_generator false false false)
  = Raise (Exc "ImportError"
             (lit "Neither langchain_google_genai nor langchain_openai is available. Please install one of them."))
  /\ result_of empty_keys_env (get_llm all_installed_globals) tt
     = Raises (Exc "ValueError"
                 (lit "GOOGLE_API_KEY environment variable is required but not set")).
Proof.
  split.
  - exact (proj1 (get_llm_configuration_errors (import_generator false false false)) eq_refl).
  - exact (proj1 (proj2 (get_llm_configuration_errors all_installed_globals) eq_refl
                    unit empty_keys_env tt (Some []) eq_refl (or_intror eq_refl))).
Defined.

Lemma generate_etl_code_no_handler_witness :
  match result_of refusing_env
          (generate_etl_code all_installed_globals (lit "SQLite") ∅ (lit "MongoDB") ∅
             (lit "uppercase the names") (VList []) (VList [])) tt with
  | Returns _ => False
  | Raises e => refused = e
  end.
Proof.
  exact (generate_etl_code_no_handler all_installed_globals (lit "SQLite") ∅
           (lit "MongoDB") ∅ (lit "uppercase the names") (VList []) (VList [])
           unit refusing_env tt refused (or_introl eq_refl)).
Defined.

(** ** Further properties: the validator *)

(** *** Programs that do not make certain calls *)

Lemma Avoids_ret {A : Type} (P : lib_call -> bool) (a : A) : Avoids P (Ret a).
Proof. intros W h w. reflexivity. Qed.

Lemma Avoids_raise {A : Type} (P : lib_call -> bool) (e : exn) : Avoids P (@Raise A e).
Proof. intros W h w. reflexivity. Qed.

Lemma Avoids_call (P : lib_call -> bool) (c : lib_call) :
  P c = false -> Avoids P (call c).
Proof.
  intros Hc W h w. unfold log_of. rewrite run_call. simpl. now rewrite Hc.
Qed.

Lemma Avoids_bind {A B : Type} (P : lib_call -> bool) (p : prog A) (f : A -> prog B) :
  Avoids P p -> (forall a, Avoids P (f a)) -> Avoids P (bind p f).
Proof.
  intros Hp Hf W h w. specialize (Hp W h w). unfold log_of in *. rewrite run_bind.
  destruct (run h p w) as [[[a | e] w1] log1]; simpl in *; [|exact Hp].
  specialize (Hf a W h w1). unfold log_of in Hf.
  destruct (run h (f a) w1) as [[o w2] log2]. simpl in *.
  now rewrite map_app, existsb_app, Hp, Hf.
Qed.

Lemma Avoids_format_value (P : lib_call -> bool) (v : pyval) :
  (forall u, P (Builtin_str u) = false) -> Avoids P (format_value v).
Proof.
  intros HP. destruct v; simpl;
    try exact (Avoids_call P (Builtin_str _) (HP _)).
  apply Avoids_ret.
Qed.

Lemma Avoids_py_int (P : lib_call -> bool) (v : pyval) :
  (forall u, P (Builtin_int u) = false) -> Avoids P (py_int v).
Proof.
  intros HP. unfold py_int.
  destruct v as [| | | s | | | |]; try exact (Avoids_call P (Builtin_int _) (HP _)).
  - apply Avoids_ret.
  - destruct s as [|c s]; [exact (Avoids_call P (Builtin_int _) (HP _))|].
    destruct (forallb is_digit (c :: s) && (length (c :: s) <=? 640)%nat);
      [apply Avoids_ret | exact (Avoids_call P (Builtin_int _) (HP _))].
Qed.

Lemma Avoids_getitem (P : lib_call -> bool) (seq : row) (i : nat) :
  Avoids P (getitem seq i).
Proof.
  unfold getitem. destruct (seq !! i); [apply Avoids_ret | apply Avoids_raise].
Qed.

Lemma Avoids_comprehension {A B : Type} (P : lib_call -> bool) (f : A -> prog B)
    (l : list A) :
  (forall x, Avoids P (f x)) -> Avoids P (comprehension f l).
Proof.
  intros Hf. induction l as [|x l IH]; simpl.
  - apply Avoids_ret.
  - apply Avoids_bind; [apply Hf|]. intros y.
    apply Avoids_bind; [exact IH|]. intros ys. apply Avoids_ret.
Qed.

(** *** Closing the connection *)




Ltac avoids_close :=
  first [ apply Avoids_call; reflexivity
        | apply Avoids_format_value; intros ?; reflexivity
        | apply Avoids_py_int; intros ?; reflexivity
        | apply Avoids_comprehension; intros ?; apply Avoids_getitem
        | apply Avoids_bind; [avoids_close | intros ?; avoids_close]
        | apply Avoids_ret ].





(** The connection stays open when the query fails. *)
Example connection_left_open :
  result_of failing_query_env
    (validate_db_connection (lit "PostgreSQL") (<[lit "table" := VStr (lit "users")]> ∅)) tt
  = Returns (false, VStr (lit "relation does not exist"))
  /\ map ev_call
       (log_of failing_query_env
          (validate_db_connection (lit "PostgreSQL") (<[lit "table" := VStr (lit "users")]> ∅)) tt)
     = [ Psycopg2_connect (VStr []) (VStr (lit "5432")) (VStr []) (VStr []) (VStr []);
         Connection_cursor 1;
         Cursor_execute 2 (lit "SELECT * FROM users LIMIT 2;") ].
Proof. split; reflexivity. Qed.

(** X11.  [validate_and_fetch_schema] returns the empty list as preview
    exactly when its status starts with [Error]; a status that is no error
    is given for a supported database type only. *)
Theorem preview_empty_iff_error :
  forall (W : Type) (h : env W) (w : W) (db_type : str) (creds : gmap str pyval),
  exists status pv,
    result_of h (validate_and_fetch_schema db_type creds) w = Returns (status, pv)
    /\ (pv = VList [] <-> startswith status (lit "Error") = true)
    /\ (startswith status (lit "Error") = false -> supported db_type).
Proof.
  intros W h w db_type creds.
  destruct (schema_result_cases _ _ _ (validate_and_fetch_schema_result db_type creds W h w))
    as [[names [recs [Heq [Hs _]]]] | [msg [Heq _]]].
  - eexists _, _. split; [exact Heq|].
    rewrite connected_status_is_no_error. split; [split; discriminate | trivial].
  - eexists _, _. split; [exact Heq|].
    rewrite error_status_is_error. split; [now split | discriminate].
Qed.

(** *** Calls a run never makes, connections it opens *)

Lemma Avoids_try_except {A : Type} (P : lib_call -> bool) (p : prog A)
    (handler : exn -> prog A) :
  Avoids P p -> (forall e, Avoids P (handler e)) -> Avoids P (try_except p handler).
Proof.
  intros Hp Hh W h w. specialize (Hp W h w). unfold log_of in *. rewrite run_try_except.
  destruct (run h p w) as [[[a | e] w1] log1]; simpl in *; [exact Hp|].
  specialize (Hh e W h w1). unfold log_of in Hh.
  destruct (run h (handler e) w1) as [[o w2] log2]. simpl in *.
  now rewrite map_app, existsb_app, Hp, Hh.
Qed.

Ltac avoids := avoids_close.

Lemma no_connections (log : list event) :
  existsb is_connect (map ev_call log) = false -> connections log = 0%nat.
Proof.
  unfold connections. induction log as [|ev log IH]; simpl; [reflexivity|].
  intros H. apply orb_false_iff in H as [Hev Hlog]. rewrite Hev. now apply IH.
Qed.

Lemma connections_app (log1 log2 : list event) :
  connections (log1 ++ log2) = (connections log1 + connections log2)%nat.
Proof. unfold connections. now rewrite map_app, List.filter_app, length_app. Qed.

Lemma OpensOnce_avoids {A : Type} (p : prog A) : Avoids is_connect p -> OpensOnce p.
Proof. intros Hp W h w. rewrite (no_connections _ (Hp W h w)). lia. Qed.

Lemma OpensOnce_bind {A B : Type} (p : prog A) (f : A -> prog B) :
  Avoids is_connect p -> (forall a, OpensOnce (f a)) -> OpensOnce (bind p f).
Proof.
  intros Hp Hf W h w. specialize (Hp W h w). apply no_connections in Hp.
  unfold log_of in *. rewrite run_bind.
  destruct (run h p w) as [[[a | e] w1] log1]; simpl in *; [|lia].
  specialize (Hf a W h w1). unfold log_of in Hf.
  destruct (run h (f a) w1) as [[o w2] log2]. simpl in *.
  rewrite connections_app. lia.
Qed.

Lemma OpensOnce_connect {B : Type} (c : lib_call) (f : lib_result c -> prog B) :
  (forall x, Avoids is_connect (f x)) -> OpensOnce (bind (call c) f).
Proof.
  intros Hf W h w. unfold log_of. rewrite run_bind, run_call.
  destruct (h c w) as [[x | e] w1]; simpl.
  - specialize (Hf x W h w1). apply no_connections in Hf. unfold log_of in Hf.
    destruct (run h (f x) w1) as [[o w2] log2]. simpl in *.
    unfold connections in *. simpl. destruct (is_connect c); simpl; lia.
  - unfold connections. simpl. destruct (is_connect c); simpl; lia.
Qed.

Lemma OpensOnce_try_except_value {A : Type} (p : prog A) (value : exn -> A) :
  OpensOnce p -> OpensOnce (try_except p (fun e => Ret (value e))).
Proof.
  intros Hp W h w. specialize (Hp W h w). unfold log_of in *.
  rewrite run_try_except_value.
  now destruct (run h p w) as [[[a | e] w1] log1].
Qed.

Lemma Avoids_fetch (P : lib_call -> bool) (connection : handle) (sql : prog str) :
  (forall c q, P (Connection_cursor c) = false /\ P (Cursor_execute c q) = false
               /\ P (Cursor_fetchall c) = false /\ P (Cursor_description c) = false
               /\ P (Cursor_close c) = false /\ P (Connection_close c) = false) ->
  Avoids P sql -> Avoids P (fetch_with_description connection sql).
Proof.
  intros HP Hsql. unfold fetch_with_description.
  apply Avoids_bind; [apply Avoids_call, (HP connection [])|]. intros cursor.
  apply Avoids_bind; [exact Hsql|]. intros query.
  apply Avoids_bind; [apply Avoids_call, (HP cursor query)|]. intros _.
  apply Avoids_bind; [apply Avoids_call, (HP cursor query)|]. intros result.
  apply Avoids_bind; [apply Avoids_call, (HP cursor query)|]. intros description.
  apply Avoids_bind; [apply Avoids_comprehension; intros ?; apply Avoids_getitem|].
  intros column_names.
  apply Avoids_bind; [apply Avoids_call, (HP cursor query)|]. intros _.
  apply Avoids_bind; [apply Avoids_call, (HP connection query)|]. intros _.
  apply Avoids_ret.
Qed.

Ltac avoids_fetch :=
  apply Avoids_fetch; [intros ? ?; repeat split | avoids].

(** X13.  [validate_db_connection] opens one connection at most in a
    call. *)
Theorem validate_db_connection_opens_once :
  forall (W : Type) (h : env W) (w : W) (db_type : str) (creds : gmap str pyval),
    (connections (log_of h (validate_db_connection db_type creds) w) <= 1)%nat.
Proof.
  intros W h w db_type creds. revert W h w. change (OpensOnce (validate_db_connection db_type creds)).
  unfold validate_db_connection. apply OpensOnce_try_except_value.
  repeat match goal with
         | |- context [str_eqb db_type ?l] => destruct (str_eqb db_type l)
         end.
  - apply OpensOnce_connect. intros connection. avoids_fetch.
  - apply OpensOnce_bind; [avoids|]. intros port.
    apply OpensOnce_connect. intros connection. avoids_fetch.
  - do 5 (apply OpensOnce_bind; [avoids|]; intros ?).
    apply OpensOnce_connect. intros connection. avoids_fetch.
  - apply OpensOnce_connect. intros client. avoids.
  - apply OpensOnce_connect. intros connection. avoids.
  - apply OpensOnce_avoids. apply Avoids_ret.
Qed.

Lemma validate_db_connection_no_json (db_type : str) (creds : gmap str pyval) :
  Avoids is_json_roundtrip (validate_db_connection db_type creds).
Proof.
  unfold validate_db_connection.
  apply Avoids_try_except; [|intros e; apply Avoids_ret].
  repeat match goal with
         | |- context [str_eqb db_type ?l] => destruct (str_eqb db_type l)
         end.
  - apply Avoids_bind; [avoids|]. intros connection. avoids_fetch.
  - apply Avoids_bind; [avoids|]. intros port.
    apply Avoids_bind; [avoids|]. intros connection. avoids_fetch.
  - do 6 (apply Avoids_bind; [avoids|]; intros ?). avoids_fetch.
  - avoids.
  - avoids.
  - apply Avoids_ret.
Qed.

Lemma validate_and_fetch_schema_no_json (db_type : str) (creds : gmap str pyval) :
  db_type <> lit "MongoDB" ->
  Avoids is_json_roundtrip (validate_and_fetch_schema db_type creds).
Proof.
  intros Hdb. apply str_eqb_neq in Hdb.
  unfold validate_and_fetch_schema.
  apply Avoids_try_except; [|intros e; apply Avoids_ret].
  apply Avoids_bind; [apply validate_db_connection_no_json|].
  intros [success result]. destruct success.
  - destruct result as [| | | | | items | |]; try apply Avoids_ret.
    destruct items as [|column_names [|data [|extra items]]]; try apply Avoids_ret.
    rewrite Hdb. apply Avoids_bind.
    + exact (Avoids_call _ (Pandas_DataFrame _ _) eq_refl).
    + intros df. avoids.
  - avoids.
Qed.

(** X14.  For a database type other than MongoDB,
    [validate_and_fetch_schema] never calls the JSON round trip, and the
    rows go to pandas as the driver returned them: when the status is no
    error, the records of the preview are those of the frame
    [pd.DataFrame(data, columns=column_names)], where [data] are the rows
    that [fetchall] returned right after the two-row query was executed
    and [column_names] are the names of the preview. *)
Theorem sql_rows_are_not_round_tripped :
  forall (W : Type) (h : env W) (w : W) (db_type : str) (creds : gmap str pyval),
    db_type <> lit "MongoDB" ->
    existsb is_json_roundtrip
      (map ev_call (log_of h (validate_and_fetch_schema db_type creds) w)) = false
    /\ forall status pv,
        result_of h (validate_and_fetch_schema db_type creds) w = Returns (status, pv) ->
        startswith status (lit "Error") = false ->
        exists names rows recs cursor sql df,
          pv = VTuple [VList names; recs]
          /\ two_row_query (Cursor_execute cursor sql) = true
          /\ Consecutive [ Event (Cursor_execute cursor sql) (Returns tt);
                           Event (Cursor_fetchall cursor) (Returns rows) ]
               (log_of h (validate_and_fetch_schema db_type creds) w)
          /\ Consecutive [ Event (Pandas_DataFrame (Some (rows_value rows))
                                                   (Some (VList names)))
                                 (Returns df);
                           Event (DataFrame_to_dict df (lit "records")) (Returns recs) ]
               (log_of h (validate_and_fetch_schema db_type creds) w).
Proof.
  intros W h w db_type creds Hdb. split.
  - now apply validate_and_fetch_schema_no_json.
  - intros status pv Hres Hok.
    destruct (validate_and_fetch_schema_reads db_type creds W h w)
      as [status' [pv' [Heq Hcase]]].
    rewrite Hres in Heq. injection Heq as <- <-.
    destruct Hcase as [Herr | [names [data [recs [-> [Hread Hframed]]]]]];
      [rewrite Herr in Hok; discriminate Hok|].
    destruct Hframed as [df _ Hc | data_str df Hm _ _ | df Hm _ _];
      [|contradiction|contradiction].
    destruct Hread
      as [cursor sql rows description _ Hq [before [after Hlog]] -> _
         | cursor sql rows pragma infos before between after _ Hq _ Hlog -> _
         | collection docs Hm _ _ _]; [| |contradiction].
    + exists names, rows, recs, cursor, sql, df.
      split; [reflexivity|]. split; [exact Hq|]. split; [|exact Hc].
      exists before, (Event (Cursor_description cursor) (Returns description) :: after).
      exact Hlog.
    + exists names, rows, recs, cursor, sql, df.
      split; [reflexivity|]. split; [exact Hq|]. split; [|exact Hc].
      eexists before, _. exact Hlog.
Qed.

Lemma sqlite_is_not_mongodb : lit "SQLite" <> lit "MongoDB".
Proof. intros H. vm_compute in H. discriminate H. Defined.

Lemma sql_rows_are_not_round_tripped_witness :
  existsb is_json_roundtrip
    (map ev_call
         (log_of sqlite_users_env
                 (validate_and_fetch_schema (lit "SQLite") (credentials sqlite_users_request))
                 [])) = false
  /\ forall status pv,
      result_of sqlite_users_env
        (validate_and_fetch_schema (lit "SQLite") (credentials sqlite_users_request)) []
      = Returns (status, pv) ->
      startswith status (lit "Error") = false ->
      exists names rows recs cursor sql df,
        pv = VTuple [VList names; recs]
        /\ two_row_query (Cursor_execute cursor sql) = true
        /\ Consecutive [ Event (Cursor_execute cursor sql) (Returns tt);
                         Event (Cursor_fetchall cursor) (Returns rows) ]
             (log_of sqlite_users_env
                (validate_and_fetch_schema (lit "SQLite") (credentials sqlite_users_request))
                [])
        /\ Consecutive [ Event (Pandas_DataFrame (Some (rows_value rows))
                                                 (Some (VList names)))
                               (Returns df);
                         Event (DataFrame_to_dict df (lit "records")) (Returns recs) ]
             (log_of sqlite_users_env
                (validate_and_fetch_schema (lit "SQLite") (credentials sqlite_users_request))
                []).
Proof.
  exact (sql_rows_are_not_round_tripped str sqlite_users_env [] (lit "SQLite")
           (credentials sqlite_users_request) sqlite_is_not_mongodb).
Defined.

(** ** Further properties: POST /generate-code *)

Lemma validate_and_fetch_schema_runs (db_type : str) (creds : gmap str pyval)
    {W : Type} (h : env W) (w : W) :
  exists r w1 log1,
    run h (validate_and_fetch_schema db_type creds) w = (Returns r, w1, log1).
Proof.
  pose proof (schema_result_cases _ _ _
                (validate_and_fetch_schema_result db_type creds W h w)) as H.
  unfold result_of in H.
  destruct (run h (validate_and_fetch_schema db_type creds) w) as [[o w1] log1].
  simpl in H.
  destruct H as [[names [recs [-> _]]] | [msg [-> _]]]; now eexists _, _, _.
Qed.

(** X12.  POST /generate-code fetches the schema of the source, then of
    the target, and calls [generate_etl_code] with the two previews whatever
    the two statuses are: a failed validation does not stop the generation.
    It answers with the generated code, or, when [generate_etl_code] raised
    [e], with status 500 and the detail [Code generation error: ] followed
    by the text of [e]; it never raises itself. *)
Theorem generate_code_composition :
  forall (g : generator_globals) (request : TransformationRequest)
         (W : Type) (h : env W) (w : W),
  exists src tgt w1 w2 log1 log2,
    run h (validate_and_fetch_schema (db_type (source request))
             (credentials (source request))) w
    = (Returns src, w1, log1)
    /\ run h (validate_and_fetch_schema (db_type (target request))
                (credentials (target request))) w1
       = (Returns tgt, w2, log2)
    /\ result_of h (generate_code g request) w
       = Returns
           (match result_of h
                    (generate_etl_code g
                       (db_type (source request)) (credentials (source request))
                       (db_type (target request)) (credentials (target request))
                       (transformations request) (snd src) (snd tgt)) w2 with
            | Returns etl_code => Body {| code := etl_code |}
            | Raises e =>
                HTTPException 500 (lit "Code generation error: " ++ exn_str e)
            end).
Proof.
  intros g request W h w.
  destruct (validate_and_fetch_schema_runs (db_type (source request))
              (credentials (source request)) h w) as [src [w1 [log1 Hsrc]]].
  destruct (validate_and_fetch_schema_runs (db_type (target request))
              (credentials (target request)) h w1) as [tgt [w2 [log2 Htgt]]].
  exists src, tgt, w1, w2, log1, log2.
  split; [exact Hsrc|]. split; [exact Htgt|].
  unfold generate_code, result_of. cbv zeta.
  rewrite run_try_except_value, run_bind, Hsrc. cbv beta iota.
  rewrite run_bind, Htgt. cbv beta iota. rewrite run_bind.
  destruct (run h (generate_etl_code _ _ _ _ _ _ _ _) w2) as [[[etl_code | e] w3] log3];
    reflexivity.
Qed.

(** Both validations fail and the code is generated all the same. *)
Example generate_code_without_previews :
  result_of gemini_env
    (generate_code all_installed_globals
       {| source := {| db_type := lit "Oracle"; credentials := ∅ |};
          target := {| db_type := lit "DB2"; credentials := ∅ |};
          transformations := lit "copy" |}) tt
  = Returns (Body {| code := lit "print('loaded')" |}).
Proof. reflexivity. Qed.
